(** * dimcli: the Result wrapper, the Dsl query client and chunks_of

    A shallow embedding of [dimcli/dimensions.py] (class [Result], class
    [Dsl], function [chunks_of]) and of the call made by
    [dimcli/jupyter/magics.py] into the loop executor, with the properties
    the specification states about them.

    Conventions of the embedding:
    - a decoded JSON value is a [json]; a Python [dict] is an association
      list in insertion order (a well-formed one has no duplicate key); a
      Python [str] is its UTF-8 encoding;
    - a Python call that may raise returns an [outcome];
    - a method runs in [Py S], a state, exception and trace monad: the
      state is the object the method may mutate, the trace lists the
      observable effects (HTTP requests, sleeps, prints) in order;
    - the HTTP endpoints are scripts: the list of responses they give to
      the successive requests. A script that is used up stands for a
      connection that fails ([requests.post] raises);
    - what the libraries outside the repository decide from their own
      environment (what IPython's display object loads from a string, which
      attributes it provides) is a parameter. *)

From Stdlib Require Import List String Ascii ZArith Lia Bool Arith DecimalString.
From Equations Require Import Equations.
Import ListNotations.

Local Open Scope string_scope.
Local Open Scope Z_scope.
Local Set Warnings "-register-all".

(* ===================================================================== *)
(** * Python values and effects *)
(* ===================================================================== *)

(** What [json.loads] / [response.json()] produce. *)
Inductive json : Type :=
| JNull
| JBool (b : bool)
| JInt (n : Z)
| JFloat (literal : string)      (* a float, kept as written: nothing computes with it *)
| JStr (s : string)
| JArr (items : list json)
| JObj (fields : list (string * json)).

Definition dict : Type := list (string * json).

(** The exceptions the modelled code can raise. *)
Inductive exn : Type :=
| TypeError
| KeyError (key : string)
| AttributeError (name : string)
| ValueError
| HTTPError (status : Z)
| ConnectionError
| OSError.

Inductive outcome (A : Type) : Type :=
| Return (a : A)
| Raise (e : exn).
Arguments Return {A} a.
Arguments Raise {A} e.

(** Observable effects, in the order they happen. *)
Inductive event : Type :=
| Post (url : string) (data : string) (authorization : string)
| PostJson (url : string) (username password : string)
| Sleep (seconds : Z)
| Print (message : string).

Record run (S A : Type) : Type := mkRun {
  outcome_of : outcome A;
  state_of : S;
  events_of : list event
}.
Arguments mkRun {S A} _ _ _.
Arguments outcome_of {S A} _.
Arguments state_of {S A} _.
Arguments events_of {S A} _.

Definition Py (S A : Type) : Type := S -> run S A.

Definition prepend {S A} (es : list event) (r : run S A) : run S A :=
  mkRun (outcome_of r) (state_of r) (es ++ events_of r).

Definition ret {S A} (a : A) : Py S A := fun s => mkRun (Return a) s [].
Definition raise {S A} (e : exn) : Py S A := fun s => mkRun (Raise e) s [].
Definition bind {S A B} (m : Py S A) (k : A -> Py S B) : Py S B :=
  fun s =>
    let r := m s in
    match outcome_of r with
    | Return a => prepend (events_of r) (k a (state_of r))
    | Raise e => mkRun (Raise e) (state_of r) (events_of r)
    end.
Definition get {S} : Py S S := fun s => mkRun (Return s) s [].
Definition put {S} (s : S) : Py S unit := fun _ => mkRun (Return tt) s [].
Definition emit {S} (e : event) : Py S unit := fun s => mkRun (Return tt) s [e].
Definition lift {S A} (o : outcome A) : Py S A := fun s => mkRun o s [].

Declare Scope py_scope.
Delimit Scope py_scope with py.
Notation "x <- m ;; k" := (bind m (fun x => k))
  (at level 61, m at next level, right associativity) : py_scope.
Notation "m ;; k" := (bind m (fun _ => k))
  (at level 61, right associativity) : py_scope.
Local Open Scope py_scope.

(** ** Built-in operations on JSON values *)

Fixpoint lookup (key : string) (d : dict) : option json :=
  match d with
  | [] => None
  | (k, v) :: d' => if String.eqb key k then Some v else lookup key d'
  end.

Definition dict_keys (d : dict) : list string := map fst d.

(** [s in t] on strings: [s] occurs in [t]. *)
Fixpoint is_substring (s t : string) : bool :=
  String.prefix s t ||
  match t with
  | EmptyString => false
  | String _ t' => is_substring s t'
  end.

Definition is_str (key : string) (v : json) : bool :=
  match v with
  | JStr s => String.eqb s key
  | _ => false
  end.

(** [key in data] for a string [key]. *)
Definition contains (key : string) (data : json) : outcome bool :=
  match data with
  | JObj d => Return (match lookup key d with Some _ => true | None => false end)
  | JArr items => Return (existsb (is_str key) items)
  | JStr s => Return (is_substring key s)
  | JNull | JBool _ | JInt _ | JFloat _ => Raise TypeError
  end.

(** [data[key]] for a string [key]. *)
Definition subscript (data : json) (key : string) : outcome json :=
  match data with
  | JObj d => match lookup key d with
              | Some v => Return v
              | None => Raise (KeyError key)
              end
  | _ => Raise TypeError
  end.

(** A byte that continues a UTF-8 sequence: [10xxxxxx]. *)
Definition is_continuation (a : ascii) : bool :=
  match a with
  | Ascii _ _ _ _ _ _ false true => true
  | _ => false
  end.

(** The number of code points of a string: the bytes of its encoding that
    start a sequence. *)
Fixpoint code_points (s : string) : nat :=
  match s with
  | EmptyString => O
  | String a s' => ((if is_continuation a then 0 else 1) + code_points s')%nat
  end.

(** [len(v)]; the length of a [str] is its number of code points. *)
Definition len (v : json) : outcome Z :=
  match v with
  | JArr items => Return (Z.of_nat (List.length items))
  | JObj d => Return (Z.of_nat (List.length d))
  | JStr s => Return (Z.of_nat (code_points s))
  | JNull | JBool _ | JInt _ | JFloat _ => Raise TypeError
  end.

(** [data.keys()]: only a dict has the method. *)
Definition keys_of (data : json) : outcome (list string) :=
  match data with
  | JObj d => Return (dict_keys d)
  | _ => Raise (AttributeError "keys")
  end.

(* ===================================================================== *)
(** * class Result *)
(* ===================================================================== *)

(** A [Result] object: what its [data] attribute holds. *)
Record Result : Type := mkResult { data : json }.

(** What the base class [IPython.display.JSON] accepts as data: a dict, a
    list or [None]. *)
Definition container (v : json) : bool :=
  match v with
  | JObj _ | JArr _ | JNull => true
  | _ => false
  end.

(** [JSON._check_data], the last step of the base class constructor: a
    [TypeError] for data that is not [None], a dict or a list. *)
Definition _check_data (v : json) : outcome Result :=
  if container v then Return (mkResult v) else Raise TypeError.

Section Display.

(** What the base class constructor loads when it is handed a string: it
    takes a string that starts with [http] for a URL and fetches it, a
    string that names an existing file for that file and reads it, and
    decodes the text it has then (otherwise the string itself) with
    [json.loads]. The network, the file system and the decoder belong to
    the libraries; what they give is a parameter (text that does not
    decode is a [ValueError], a URL or file that cannot be read an
    [OSError]). *)
Variable display_str : string -> outcome json.

(** A lemma depends on section variables only through its statement. *)
Set Default Proof Using "Type*".

(** [Result(data)]: [Result.__init__] hands [data] to
    [IPython.display.JSON.__init__], which keeps a dict, a list or [None]
    as [self.data], loads a string as said above and checks what it has
    loaded, and raises [TypeError] for a number or a boolean. *)
Definition Result__init__ (data : json) : outcome Result :=
  match data with
  | JStr s =>
      match display_str s with
      | Return loaded => _check_data loaded
      | Raise e => Raise e
      end
  | _ => _check_data data
  end.

Definition False_ : json := JBool false.

(** The methods run with [self] as their state. *)
Definition __getitem__ (key : string) : Py Result json :=
  self <- get ;;
  present <- lift (contains key (data self)) ;;
  if (present : bool) then lift (subscript (data self) key)
  else ret False_.

Definition __getattr__ (name : string) : Py Result json :=
  let name := if String.eqb name "stats" then "_stats" else name in
  __getitem__ name.

Definition keys : Py Result (list string) :=
  self <- get ;;
  lift (keys_of (data self)).

(** The list comprehension of [keys_and_count], one key at a time. *)
Fixpoint keys_and_count_items (self : Result) (xs : list string)
  : outcome (list (string * Z)) :=
  match xs with
  | [] => Return []
  | x :: xs' =>
      match subscript (data self) x with
      | Raise e => Raise e
      | Return v =>
          match len v with
          | Raise e => Raise e
          | Return n =>
              match keys_and_count_items self xs' with
              | Raise e => Raise e
              | Return rest => Return ((x, n) :: rest)
              end
          end
      end
  end.

Definition keys_and_count : Py Result (list (string * Z)) :=
  self <- get ;;
  xs <- lift (keys_of (data self)) ;;
  lift (keys_and_count_items self xs).

(** What evaluating [result.name] gives: a JSON value, a method of class
    [Result] bound to the object, or the attribute of that name that the
    base classes or the object itself provide. *)
Inductive attribute : Type :=
| Value (v : json)
| BoundMethod (name : string)
| Inherited (name : string).

(** The names class [Result] defines itself. *)
Definition Result_methods : list string :=
  ["__init__"; "__getitem__"; "__getattr__"; "keys"; "keys_and_count"].

(** [result.name]. Python looks the name up on the object and its classes
    first and calls [__getattr__] only when that fails. [data] is the
    property of the base class that gives the payload; the methods of
    [Result_methods] are found on the class. [inherited] tells which other
    names that lookup finds: the attributes [IPython.display.JSON] sets on
    the object ([metadata], [url], [filename], [_data]), its methods and
    those of [object] ([reload], [__class__], [__doc__], ...). They belong
    to the libraries and are a parameter. *)
Definition getattr (inherited : string -> bool) (name : string)
  : Py Result attribute :=
  if String.eqb name "data" then
    self <- get ;; ret (Value (data self))
  else if existsb (String.eqb name) Result_methods then
    ret (BoundMethod name)
  else if inherited name then
    ret (Inherited name)
  else
    v <- __getattr__ name ;; ret (Value v).

(** Some of the names the base classes provide, for the examples. *)
Definition example_inherited (name : string) : bool :=
  existsb (String.eqb name)
          ["metadata"; "url"; "filename"; "_data"; "reload"; "_check_data";
           "_repr_json_"; "__class__"; "__doc__"; "__dict__"].

(** [result[key]], as an attribute value. *)
Definition getitem (key : string) : Py Result attribute :=
  v <- __getitem__ key ;; ret (Value v).

(** C6, as the specification words it: the pairs of the keys whose value
    is a sequence. *)
Fixpoint sequence_counts (d : dict) : list (string * Z) :=
  match d with
  | [] => []
  | (k, JArr items) :: d' => (k, Z.of_nat (List.length items)) :: sequence_counts d'
  | _ :: d' => sequence_counts d'
  end.

(* ===================================================================== *)
(** * chunks_of *)
(* ===================================================================== *)

Section Chunks.
Context {A : Type}.

(** [list(islice(it, n))]: the next [n] items of the iterator, and the
    iterator after them. *)
Definition islice (it : list A) (n : nat) : list A * list A :=
  (firstn n it, skipn n it).

(** The [while chunk:] loop; [it] is what the iterator still holds. The
    result lists the chunks in the order they are yielded. *)
Equations? chunks_loop (size : nat) (chunk it : list A) : list (list A)
  by wf (List.length chunk + List.length it)%nat lt :=
  chunks_loop size [] it := [];
  chunks_loop size (x :: c) it :=
    (x :: c) :: chunks_loop size (fst (islice it size)) (snd (islice it size)).
Proof.
  simpl. rewrite <- (firstn_skipn size it) at 3.
  rewrite length_app. lia.
Qed.

(** The chunks yielded from the point where the iterator holds [l]. *)
Definition chunks_from (size : nat) (l : list A) : list (list A) :=
  chunks_loop size (fst (islice l size)) (snd (islice l size)).

(** [chunks_of(data, size)] for an integer [size], run to exhaustion.
    [islice] refuses a negative bound with [ValueError], on the first
    [next()]. *)
Definition chunks_of (data : list A) (size : Z) : outcome (list (list A)) :=
  if size <? 0 then Raise ValueError
  else
    let it := data in
    let n := Z.to_nat size in
    Return (chunks_from n it).
End Chunks.

(* ===================================================================== *)
(** * class Dsl *)
(* ===================================================================== *)

(** A [requests.Response]: its status and what [response.json()] decodes
    ([None] when the body is not JSON). *)
Record Response : Type := mkResponse {
  status_code : Z;
  body : option json
}.

Definition response_json (response : Response) : outcome json :=
  match body response with
  | Some v => Return v
  | None => Raise ValueError
  end.

(** [response.raise_for_status()] of the requests library: an [HTTPError]
    for a 4xx or 5xx status, nothing otherwise. *)
Definition raise_for_status (response : Response) : outcome unit :=
  if (400 <=? status_code response) && (status_code response <? 600)
  then Raise (HTTPError (status_code response))
  else Return tt.

(** The attributes of a [Dsl] object. [_headers] holds the value of the
    [Authorization] header once [_login] has set it. *)
Record Dsl : Type := mkDsl {
  _url : string;
  _username : string;
  _password : string;
  _headers : option string
}.

(** The state a query runs in: the object, and the script of the
    authentication endpoint. *)
Record Client : Type := mkClient {
  self : Dsl;
  auth_json : list Response
}.

Definition set_headers (h : string) : Py Client unit :=
  c <- get ;;
  put (mkClient (mkDsl (_url (self c)) (_username (self c))
                       (_password (self c)) (Some h))
                (auth_json c)).

(** [requests.post(url, json=login)] to the authentication endpoint. *)
Definition post_login (url username password : string) : Py Client Response :=
  emit (PostJson url username password) ;;
  c <- get ;;
  match auth_json c with
  | [] => raise ConnectionError
  | response :: rest => put (mkClient (self c) rest) ;; ret response
  end.

Definition _login : Py Client unit :=
  c <- get ;;
  response <- post_login (_url (self c) ++ "/api/auth.json")
                         (_username (self c)) (_password (self c)) ;;
  lift (raise_for_status response) ;;
  j <- lift (response_json response) ;;
  token <- lift (subscript j "token") ;;
  match token with
  | JStr t => set_headers ("JWT " ++ t)
  | _ => raise TypeError
  end.

Definition headers_of (d : Dsl) : Py Client string :=
  match _headers d with
  | Some h => ret h
  | None => raise (AttributeError "_headers")
  end.

(** [Dsl.query(q, retry)]. [server] is the script of the query endpoint;
    every call sends one request, so the recursion is on the script. The
    value is what the call returns ([None] when the body of the function
    falls through) and the script that is left. *)
Fixpoint query (server : list Response) (q : string) (retry : Z) {struct server}
  : Py Client (option Result * list Response) :=
  c <- get ;;
  headers <- headers_of (self c) ;;
  emit (Post (_url (self c) ++ "/api/dsl.json") q headers) ;;
  match server with
  | [] => raise ConnectionError
  | response :: server' =>
      if status_code response =? 429 then
        emit (Print "Too Many Requests for the Server. Sleeping for 30 seconds and then retrying.") ;;
        emit (Sleep 30) ;;
        query server' q 0
      else if status_code response =? 403 then
        emit (Print "Login token expired. Logging in again.") ;;
        _login ;;
        query server' q 0
      else if existsb (Z.eqb (status_code response)) [200; 400; 500] then
        j <- lift (response_json response) ;;
        result <- lift (Result__init__ j) ;;
        ret (Some result, server')
      else
        if retry >? 0 then
          emit (Print "Retrying in 30 secs") ;;
          emit (Sleep 30) ;;
          query server' q (retry - 1)
        else
          lift (raise_for_status response) ;;
          ret (None, server')
  end.

(** ** Reading a trace *)

Definition is_request (e : event) : bool :=
  match e with Post _ _ _ => true | _ => false end.

Definition is_login (e : event) : bool :=
  match e with PostJson _ _ _ => true | _ => false end.

(** The query requests of a trace, and the number of logins in it. *)
Definition requests (es : list event) : list event := filter is_request es.
Definition logins (es : list event) : nat := List.length (filter is_login es).

(** The request [query] sends for [q] with the token [h]. *)
Definition request (c : Client) (q h : string) : event :=
  Post (_url (self c) ++ "/api/dsl.json") q h.

(** The login request [_login] sends. *)
Definition login_request (c : Client) : event :=
  PostJson (_url (self c) ++ "/api/auth.json") (_username (self c)) (_password (self c)).

(** What the three waiting branches of [query] do before they call
    [query] again. *)
Definition rate_limited (c : Client) (q h : string) : list event :=
  [request c q h;
   Print "Too Many Requests for the Server. Sleeping for 30 seconds and then retrying.";
   Sleep 30].

Definition token_expired (c : Client) (q h : string) : list event :=
  [request c q h; Print "Login token expired. Logging in again."].

Definition retrying (c : Client) (q h : string) : list event :=
  [request c q h; Print "Retrying in 30 secs"; Sleep 30].

(** The client after a login that was answered with the token [t]. *)
Definition logged_in (c : Client) (t : string) (auths : list Response) : Client :=
  mkClient (mkDsl (_url (self c)) (_username (self c)) (_password (self c))
                  (Some ("JWT " ++ t)))
           auths.

(** The statuses [query] has no branch for. *)
Definition unexpected (status : Z) : bool :=
  negb (existsb (Z.eqb status) [429; 403; 200; 400; 500]).

(** ** A session to run examples in *)

(** A client that holds the token [t0]; its next login is answered with
    the token [t1]. *)
Definition example_client : Client :=
  mkClient (mkDsl "https://app.dimensions.ai" "user" "secret" (Some "JWT t0"))
           [mkResponse 200 (Some (JObj [("token", JStr "t1")]))].

Definition example_query : string := "search publications return publications".

Definition example_payload : json :=
  JObj [("publications", JArr [JStr "pub.1"; JStr "pub.2"]);
        ("_stats", JObj [("total_count", JInt 2)])].

(** A display environment for the examples: the two texts they hand to
    it decode to an empty mapping and an empty list, and any other string
    is taken not to be JSON text. *)
Definition example_display (s : string) : outcome json :=
  if String.eqb s "{}" then Return (JObj [])
  else if String.eqb s "[]" then Return (JArr [])
  else Raise ValueError.

(** A response with a JSON body, and one without. *)
Definition answer (status : Z) (v : json) : Response := mkResponse status (Some v).
Definition bare (status : Z) : Response := mkResponse status None.

(* ===================================================================== *)
(** * The loop executor *)
(* ===================================================================== *)

(** [_handle_query(text, loop=True)] of [magics.py] hands the query to
    [self.dslobject.query_iterative(text)]. That method belongs to a
    version of class [Dsl] that is not among the sources; the definitions
    of this part follow section 4.3 of the specification. *)

(** [str(n)] for an integer. *)
Definition str (n : Z) : string := NilZero.string_of_int (Z.to_int n).

(** Modelled from the spec: the pagination clauses the loop executor
    injects into the caller's query, for a page size and an offset. *)
Definition paginate (q : string) (limit skip : Z) : string :=
  q ++ " limit " ++ str limit ++ " skip " ++ str skip.

(** Modelled from the spec: the records of a page, the list under the
    logical result key [source] (none when the key is missing or holds
    something else). *)
Definition records (source : string) (page : json) : list json :=
  match subscript page source with
  | Return (JArr items) => items
  | _ => []
  end.

(** Modelled from the spec: the optional total a page declares, the
    [total_count] of its [_stats]. *)
Definition declared_total (page : json) : option Z :=
  match subscript page "_stats" with
  | Return stats =>
      match subscript stats "total_count" with
      | Return (JInt t) => Some t
      | _ => None
      end
  | Raise _ => None
  end.

(** Modelled from the spec: the PaginationState of section 3. *)
Record PaginationState : Type := mkPagination {
  offset : Z;
  accumulated : list json;
  done : bool
}.

(** Modelled from the spec: the state after a page was received at the
    current offset. The offset grows by the page size; the loop is done
    on a short page or when the declared total is reached. *)
Definition next_state (source : string) (limit : Z) (st : PaginationState)
    (page : json) : PaginationState :=
  let count := Z.of_nat (List.length (records source page)) in
  let short := count <? limit in
  let reached :=
    match declared_total page with
    | Some total => total <=? offset st + count
    | None => false
    end in
  mkPagination (offset st + limit) (accumulated st ++ [page]) (short || reached).

(** Modelled from the spec: a mapping with the value under [key]
    replaced, the other fields and the key order kept. *)
Definition replace_field (key : string) (v : json) (d : dict) : dict :=
  map (fun kv => if String.eqb (fst kv) key then (fst kv, v) else kv) d.

(** Modelled from the spec: the merge of the pages. The records are
    concatenated in request order under the result key; every other field
    is the one of the first page. *)
Definition merge (source : string) (pages : list json) : json :=
  match pages with
  | [] => JObj []
  | JObj d :: _ =>
      JObj (replace_field source (JArr (List.concat (map (records source) pages))) d)
  | first :: _ => first
  end.

(** Modelled from the spec: the loop of the Loop Executor, on top of
    [query]. Each round sends one page request through [query]; an error
    of [query] ends the loop and drops the accumulated pages. [fuel]
    bounds the number of rounds; [None] is the answer of a loop that ran
    out of it. *)
Fixpoint query_pages (fuel : nat) (server : list Response) (q source : string)
    (limit : Z) (st : PaginationState)
  : Py Client (option PaginationState) :=
  if done st then ret (Some st)
  else
    match fuel with
    | O => ret None
    | S fuel' =>
        answer <- query server (paginate q limit (offset st)) 0 ;;
        match fst answer with
        | None => raise TypeError
        | Some res =>
            query_pages fuel' (snd answer) q source limit
                        (next_state source limit st (data res))
        end
    end.

(** Modelled from the spec: [query_iterative]. A round uses up at least
    one response of the script, so one more round than the script has
    responses is all the loop can make. *)
Definition query_iterative (server : list Response) (q source : string)
    (limit : Z) : Py Client (option Result) :=
  final <- query_pages (S (List.length server)) server q source limit
                       (mkPagination 0 [] false) ;;
  match final with
  | None => ret None
  | Some st => ret (Some (mkResult (merge source (accumulated st))))
  end.

(** Modelled from the spec: the offsets of [n] successive page requests,
    from [start] on, one page size apart. *)
Fixpoint page_offsets (start limit : Z) (n : nat) : list Z :=
  match n with
  | O => []
  | S n' => start :: page_offsets (start + limit) limit n'
  end.

(** The page requests of a loop query at these offsets. *)
Definition page_requests (c : Client) (q h : string) (limit : Z)
    (offsets : list Z) : list event :=
  map (fun skip => request c (paginate q limit skip) h) offsets.

(** The number of records of a result, [len(result[source])]. *)
Definition record_count (source : string) (result : Result) : Z :=
  Z.of_nat (List.length (records source (data result))).

(** [DslMagics._handle_query]; [line_add_lazy_return] and
    [line_add_lazy_describe] complete the text and are not among the
    sources, they are an argument here. The page size and the result key
    are the loop executor's configuration. *)
Definition _handle_query (lazy_complete : string -> string)
    (server : list Response) (source : string) (limit : Z)
    (text : string) (loop : bool) : Py Client (option Result) :=
  let text := lazy_complete text in
  if negb loop then
    res <- query server text 0 ;;
    ret (fst res)
  else
    res <- query_iterative server text source limit ;;
    ret res.

(** A page of [n] publications out of 1237. *)
Definition example_page (n : nat) : json :=
  JObj [("publications", JArr (repeat (JStr "pub") n));
        ("_stats", JObj [("total_count", JInt 1237)])].

(* ===================================================================== *)
(** * Constructing a Dsl object *)
(* ===================================================================== *)

(** What [configparser] has read from [~/.dimensions/dsl.ini]: the
    sections with the options a lookup in them finds (defaults and
    interpolation applied), in file order. [config.read] skips a file
    that does not exist, which leaves no section at all. (A file that
    cannot be parsed makes [config.read] raise; the model starts from a
    file that was read.) *)
Definition ini : Type := list (string * list (string * string)).

Fixpoint assoc {V : Type} (key : string) (l : list (string * V)) : option V :=
  match l with
  | [] => None
  | (k, v) :: l' => if String.eqb key k then Some v else assoc key l'
  end.

(** [section[key]] on a section of the configuration. *)
Definition option_of {S} (section : list (string * string)) (key : string)
  : Py S string :=
  match assoc key section with
  | Some v => ret v
  | None => raise (KeyError key)
  end.

(** [Dsl._get_config_from_file(instance_name)]; [click.secho] prints. *)
Definition _get_config_from_file {S} (config : ini) (instance_name : string)
  : Py S (list (string * string)) :=
  match assoc ("instance." ++ instance_name) config with
  | Some section => ret section
  | None =>
      emit (Print ("ERROR: Credentials file does contain settings for instance: "
                   ++ instance_name)) ;;
      emit (Print "HowTo: https://github.com/lambdamusic/dimcli#credentials-file") ;;
      raise (KeyError ("instance." ++ instance_name))
  end.

(** Truth value of a string in a condition: it is not empty. *)
Definition truthy (s : string) : bool :=
  match s with
  | EmptyString => false
  | String _ _ => true
  end.

(** [self._login()] at the end of [__init__], on the object whose three
    attributes are set; the state is the script of the authentication
    endpoint, the value the object that was constructed. *)
Definition first_login (d : Dsl) : Py (list Response) Dsl :=
  fun auths =>
    let r := _login (mkClient d auths) in
    mkRun (match outcome_of r with
           | Return _ => Return (self (state_of r))
           | Raise e => Raise e
           end)
          (auth_json (state_of r))
          (events_of r).

(** [Dsl.__init__(instance, user, password, endpoint)], called as
    [Dsl(...)]. The defaults of the arguments are ["live"], [""], [""]
    and ["https://app.dimensions.ai"]. *)
Definition __init__ (config : ini) (instance user password endpoint : string)
  : Py (list Response) Dsl :=
  if truthy user && truthy password then
    first_login (mkDsl endpoint user password None)
  else
    config_section <- _get_config_from_file config instance ;;
    url <- option_of config_section "url" ;;
    login <- option_of config_section "login" ;;
    password <- option_of config_section "password" ;;
    first_login (mkDsl url login password None).

(** A credentials file with the one section the documentation shows. *)
Definition example_ini : ini :=
  [("instance.live", [("url", "https://app.dimensions.ai");
                      ("login", "your_username");
                      ("password", "your_password")])].

(** ** More ways to read a script and a trace *)

(** The statuses [query] answers with a [Result]. *)
Definition answerable (status : Z) : bool :=
  existsb (Z.eqb status) [200; 400; 500].

(** The seconds slept, sleep by sleep. *)
Definition sleeps (es : list event) : list Z :=
  flat_map (fun e => match e with Sleep s => [s] | _ => [] end) es.

(** How many responses of a script have the status [s]. *)
Definition count_status (s : Z) (rs : list Response) : nat :=
  List.length (filter (fun r => status_code r =? s) rs).

(** Two objects with the same url, username and password. *)
Definition same_credentials (d d' : Dsl) : Prop :=
  _url d = _url d' /\ _username d = _username d' /\ _password d = _password d'.

(** An event that, when it is a query request, goes to [url] with the
    body [q]. *)
Definition carries (url q : string) (e : event) : Prop :=
  match e with
  | Post url' q' _ => url' = url /\ q' = q
  | _ => True
  end.

(* ===================================================================== *)
(** * Properties of class Result *)
(* ===================================================================== *)

Lemma lookup_In (d : dict) (k : string) (v : json) :
  NoDup (dict_keys d) -> In (k, v) d -> lookup k d = Some v.
Proof.
  induction d as [|[k' v'] d IH]; simpl; intros Hnd Hin; [contradiction|].
  inversion Hnd as [|? ? Hnotin Hnd']; subst.
  destruct Hin as [Heq|Hin].
  - inversion Heq; subst. now rewrite String.eqb_refl.
  - destruct (String.eqb_spec k k') as [->|_].
    + exfalso. apply Hnotin. change k' with (fst (k', v)).
      now apply in_map.
    + now apply IH.
Qed.

Lemma lookup_None_iff (d : dict) (k : string) :
  lookup k d = None <-> ~ In k (dict_keys d).
Proof.
  clear display_str.
  induction d as [|[k' v'] d IH]; simpl.
  - tauto.
  - destruct (String.eqb_spec k k') as [->|Hne].
    + split; [discriminate | intros H; exfalso; apply H; now left].
    + rewrite IH. split; intros H; [intros [E|E]; [now subst | tauto] | tauto].
Qed.

Lemma keys_and_count_items_all (d d' : dict) (counts : list (string * Z)) :
  (forall kv, In kv d' -> lookup (fst kv) d = Some (snd kv)) ->
  Forall2 (fun kv kn => fst kn = fst kv /\ len (snd kv) = Return (snd kn))
          d' counts ->
  keys_and_count_items (mkResult (JObj d)) (dict_keys d') = Return counts.
Proof.
  intros Hd H. induction H as [|[k v] [k' n] d' counts [Hk Hn] _ IH]; simpl.
  - reflexivity.
  - simpl in Hk, Hn. subst k'.
    pose proof (Hd (k, v) (or_introl eq_refl)) as E. simpl in E.
    rewrite E, Hn.
    fold (dict_keys d'). rewrite IH; [reflexivity|].
    intros kv Hin. apply Hd. now right.
Qed.

(** C7. Key-style access on a result whose payload is a mapping returns
    the payload's value when the key is present and the not-found
    sentinel [False] when it is absent; it never raises, and the object
    (hence its payload) is the same after the lookup. *)
Theorem getitem_value_or_sentinel (d : dict) (key : string) :
  let result := mkResult (JObj d) in
  outcome_of (__getitem__ key result)
    = Return (match lookup key d with Some v => v | None => False_ end)
  /\ state_of (__getitem__ key result) = result
  /\ data (state_of (__getitem__ key result)) = JObj d.
Proof.
  unfold __getitem__, bind, get, lift, ret, prepend; simpl.
  destruct (lookup key d); simpl; auto.
Qed.

(** C6 fails as stated: on the payload of an ordinary answer, a list of
    records and the [_stats] mapping, [keys_and_count] also counts
    [_stats], which is not a sequence. *)
Lemma keys_and_count_counts_stats :
  let payload :=
    [("publications", JArr [JStr "pub.1"; JStr "pub.2"; JStr "pub.3"]);
     ("_stats", JObj [("total_count", JInt 5)])] in
  outcome_of (keys_and_count (mkResult (JObj payload)))
    = Return [("publications", 3); ("_stats", 1)]
  /\ outcome_of (keys_and_count (mkResult (JObj payload)))
     <> Return (sequence_counts payload).
Proof.
  split; [reflexivity | discriminate].
Qed.

(** C6, amended. [keys_and_count] does not select keys: on a payload
    whose values all have a length (lists, mappings, strings) it returns
    the pair (key, length of the value) of every top-level key, in the
    payload's key order. On a payload with two list-valued keys that is
    [(key1, len1); (key2, len2)]. *)
Theorem keys_and_count_every_key :
  (forall (d : dict) (counts : list (string * Z)),
     NoDup (dict_keys d) ->
     Forall2 (fun kv kn => fst kn = fst kv /\ len (snd kv) = Return (snd kn))
             d counts ->
     outcome_of (keys_and_count (mkResult (JObj d))) = Return counts)
  /\ (forall (key1 key2 : string) (l1 l2 : list json),
        key1 <> key2 ->
        outcome_of (keys_and_count
                      (mkResult (JObj [(key1, JArr l1); (key2, JArr l2)])))
          = Return [(key1, Z.of_nat (List.length l1));
                    (key2, Z.of_nat (List.length l2))]).
Proof.
  clear display_str.
  assert (Hall : forall d counts,
     NoDup (dict_keys d) ->
     Forall2 (fun kv kn => fst kn = fst kv /\ len (snd kv) = Return (snd kn))
             d counts ->
     outcome_of (keys_and_count (mkResult (JObj d))) = Return counts).
  { intros d counts Hnd H.
    unfold keys_and_count, bind, get, lift, prepend; simpl.
    rewrite (keys_and_count_items_all d d counts); auto.
    intros [k v] Hin. now apply lookup_In. }
  split; [exact Hall|].
  intros key1 key2 l1 l2 Hne. apply Hall.
  - repeat constructor; simpl; intuition congruence.
  - repeat constructor.
Qed.

Lemma keys_and_count_every_key_witness :
  outcome_of (keys_and_count
                (mkResult (JObj [("publications", JArr [JNull; JNull]);
                                 ("_stats", JObj [("total_count", JInt 2)]);
                                 ("_version", JStr "1.9")])))
    = Return [("publications", 2); ("_stats", 1); ("_version", 3)]
  /\ outcome_of (keys_and_count
                   (mkResult (JObj [("publications", JArr [JNull; JNull]);
                                    ("grants", JArr [JNull])])))
     = Return [("publications", 2); ("grants", 1)].
Proof.
  split.
  - apply (proj1 keys_and_count_every_key).
    + repeat constructor; simpl; intuition discriminate.
    + repeat constructor.
  - apply (proj2 keys_and_count_every_key "publications" "grants"
                 [JNull; JNull] [JNull]).
    discriminate.
Defined.

(** C8 fails as stated: [keys] is a method of the class, so
    [result.keys] is that method and [__getattr__] is not asked, whatever
    the payload holds under the key and whatever else the base classes
    provide. *)
Lemma getattr_keys_is_the_method :
  let result := mkResult (JObj [("keys", JArr [JInt 1])]) in
  "keys" <> "stats"
  /\ (forall inherited,
        outcome_of (getattr inherited "keys" result) = Return (BoundMethod "keys"))
  /\ outcome_of (getitem "keys" result) = Return (Value (JArr [JInt 1]))
  /\ (forall inherited,
        outcome_of (getattr inherited "keys" result)
        <> outcome_of (getitem "keys" result)).
Proof.
  repeat split; try reflexivity; discriminate.
Qed.

(** C8, amended. For every name that ordinary attribute lookup does not
    find ([data], the methods of the class and whatever the base classes
    and the object provide are found), attribute-style access equals
    key-style access, with the one renaming rule: [result.stats] is
    [result["_stats"]], and every other such name gives [result[name]]. *)
Theorem getattr_is_getitem_when_not_found :
  (forall (inherited : string -> bool) (result : Result),
     inherited "stats" = false ->
     getattr inherited "stats" result = getitem "_stats" result)
  /\ (forall (inherited : string -> bool) (result : Result) (name : string),
        name <> "stats" -> name <> "data" -> ~ In name Result_methods ->
        inherited name = false ->
        getattr inherited name result = getitem name result).
Proof.
  split.
  - intros inherited result Hi. unfold getattr. cbn [String.eqb existsb].
    cbn. rewrite Hi. reflexivity.
  - intros inherited result name Hs Hd Hm Hi.
    unfold getattr, getitem, __getattr__.
    destruct (String.eqb_spec name "data") as [->|_]; [contradiction|].
    destruct (existsb (String.eqb name) Result_methods) eqn:E.
    + exfalso. apply Hm. apply existsb_exists in E.
      destruct E as [x [Hin Heq]]. apply String.eqb_eq in Heq. now subst.
    + rewrite Hi.
      destruct (String.eqb_spec name "stats") as [->|_]; [contradiction|].
      reflexivity.
Qed.

Lemma getattr_is_getitem_when_not_found_witness :
  let result := mkResult (JObj [("publications", JArr [JStr "pub.1"]);
                                ("_stats", JObj [("total_count", JInt 5)])]) in
  getattr example_inherited "publications" result = getitem "publications" result
  /\ getattr example_inherited "stats" result = getitem "_stats" result
  /\ outcome_of (getattr example_inherited "stats" result)
     = Return (Value (JObj [("total_count", JInt 5)]))
  /\ outcome_of (getattr example_inherited "missing_key" result)
     = Return (Value False_)
  /\ outcome_of (getattr example_inherited "metadata" result)
     = Return (Inherited "metadata").
Proof.
  intros result. split; [|split; [|repeat split]].
  - apply (proj2 getattr_is_getitem_when_not_found example_inherited result
                 "publications").
    + discriminate.
    + discriminate.
    + simpl. intros H. repeat (destruct H as [H|H]; [discriminate|]). exact H.
    + reflexivity.
  - apply (proj1 getattr_is_getitem_when_not_found example_inherited result).
    reflexivity.
Defined.

(* ===================================================================== *)
(** * Properties of chunks_of *)
(* ===================================================================== *)

Section ChunksProperties.
Context {A : Type}.
Implicit Types (data l chunk : list A) (chunks : list (list A)).

Lemma chunks_from_nil (size : nat) : chunks_from size (@nil A) = [].
Proof.
  unfold chunks_from, islice. simpl. rewrite firstn_nil.
  now simp chunks_loop.
Qed.

Lemma chunks_from_cons (size : nat) (l : list A) :
  (0 < size)%nat -> l <> [] ->
  chunks_from size l = firstn size l :: chunks_from size (skipn size l).
Proof.
  intros Hs Hl. unfold chunks_from, islice. simpl.
  destruct l as [|x l]; [contradiction|].
  destruct size as [|size]; [lia|]. simpl.
  now simp chunks_loop.
Qed.

(** Induction along the rounds of the loop. *)
Lemma chunks_from_rounds (size : nat) (P : list A -> list (list A) -> Prop) :
  (0 < size)%nat ->
  P [] [] ->
  (forall l, l <> [] ->
             P (skipn size l) (chunks_from size (skipn size l)) ->
             P l (firstn size l :: chunks_from size (skipn size l))) ->
  forall l, P l (chunks_from size l).
Proof.
  intros Hs Hnil Hcons l.
  remember (List.length l) as n eqn:Hn. revert l Hn.
  induction n as [n IH] using lt_wf_ind. intros l Hn.
  destruct l as [|x l].
  - rewrite chunks_from_nil. exact Hnil.
  - rewrite chunks_from_cons by (auto; discriminate).
    apply Hcons; [discriminate|].
    apply (IH (List.length (skipn size (x :: l)))); [|reflexivity].
    subst n. rewrite length_skipn. cbn [List.length]. lia.
Qed.

Lemma chunks_from_concat (size : nat) (l : list A) :
  (0 < size)%nat -> List.concat (chunks_from size l) = l.
Proof.
  intros Hs. apply (chunks_from_rounds size (fun l cs => List.concat cs = l)); auto.
  intros l0 _ IH. simpl. rewrite IH. apply firstn_skipn.
Qed.

Lemma chunks_from_nonempty (size : nat) (l : list A) :
  (0 < size)%nat -> Forall (fun c => c <> []) (chunks_from size l).
Proof.
  intros Hs.
  apply (chunks_from_rounds size (fun _ cs => Forall (fun c => c <> []) cs)); auto.
  intros l0 Hl0 IH. constructor; [|exact IH].
  destruct l0; [contradiction|]. destruct size; [lia|]. discriminate.
Qed.

Lemma chunks_from_full (size : nat) (l : list A) :
  (0 < size)%nat ->
  forall pre c post,
    chunks_from size l = (pre ++ c :: post)%list -> post <> [] ->
    List.length c = size.
Proof.
  intros Hs.
  apply (chunks_from_rounds size
           (fun _ cs => forall pre c post,
                cs = (pre ++ c :: post)%list -> post <> [] -> List.length c = size));
    auto.
  - intros pre c post H. now destruct pre.
  - intros l0 Hl0 IH pre c post H Hpost.
    destruct pre as [|c0 pre]; simpl in H; inversion H; subst.
    + apply firstn_length_le.
      destruct (Nat.le_gt_cases size (List.length l0)) as [Hle|Hgt]; [exact Hle|].
      exfalso. apply Hpost.
      rewrite skipn_all2 by lia. apply chunks_from_nil.
    + eapply IH; eauto.
Qed.

Lemma chunks_from_bounded (size : nat) (l : list A) :
  (0 < size)%nat -> Forall (fun c => (List.length c <= size)%nat) (chunks_from size l).
Proof.
  intros Hs.
  apply (chunks_from_rounds size
           (fun _ cs => Forall (fun c => (List.length c <= size)%nat) cs)); auto.
  intros l0 _ IH. constructor; [|exact IH].
  rewrite length_firstn. apply Nat.le_min_l.
Qed.

(** C9. For a chunk size greater than zero, [chunks_of] yields chunks
    whose concatenation, in order, is the original sequence; every
    chunk but possibly the last has exactly [size] items, and the last
    has at most [size]; no chunk is empty. *)
Theorem chunks_of_splits (data : list A) (size : Z) :
  0 < size ->
  exists chunks,
    chunks_of data size = Return chunks
    /\ List.concat chunks = data
    /\ (forall pre c post,
           chunks = (pre ++ c :: post)%list -> post <> [] ->
           Z.of_nat (List.length c) = size)
    /\ Forall (fun c => Z.of_nat (List.length c) <= size) chunks
    /\ Forall (fun c => c <> []) chunks.
Proof.
  intros Hs. exists (chunks_from (Z.to_nat size) data).
  assert (Hn : (0 < Z.to_nat size)%nat) by lia.
  split; [|split; [|split; [|split]]].
  - unfold chunks_of. destruct (Z.ltb_spec size 0); [lia | reflexivity].
  - now apply chunks_from_concat.
  - intros pre c post H Hpost.
    rewrite (chunks_from_full _ _ Hn _ _ _ H Hpost). lia.
  - eapply Forall_impl; [|apply (chunks_from_bounded _ data Hn)].
    cbv beta. intros c Hc. lia.
  - now apply chunks_from_nonempty.
Qed.
End ChunksProperties.

Lemma chunks_of_splits_witness :
  0 < 2
  /\ exists chunks,
       chunks_of [1; 2; 3; 4; 5] 2 = Return chunks
       /\ List.concat chunks = [1; 2; 3; 4; 5]
       /\ (forall pre c post,
              chunks = (pre ++ c :: post)%list -> post <> [] ->
              Z.of_nat (List.length c) = 2)
       /\ Forall (fun c => Z.of_nat (List.length c) <= 2) chunks
       /\ Forall (fun c => c <> []) chunks.
Proof.
  split; [reflexivity | apply (chunks_of_splits [1; 2; 3; 4; 5] 2); reflexivity].
Defined.

Example chunks_of_5_by_2 :
  chunks_of [1; 2; 3; 4; 5] 2 = Return [[1; 2]; [3; 4]; [5]].
Proof. reflexivity. Qed.

(* ===================================================================== *)
(** * Properties of Dsl.query *)
(* ===================================================================== *)

Lemma prepend_nil {S A} (r : run S A) : prepend [] r = r.
Proof. now destruct r. Qed.

Lemma prepend_prepend {S A} (es es' : list event) (r : run S A) :
  prepend es (prepend es' r) = prepend (es ++ es') r.
Proof. unfold prepend; simpl. now rewrite app_assoc. Qed.

Lemma prepend_mkRun {S A} (es es' : list event) (o : outcome A) (s : S) :
  prepend es (mkRun o s es') = mkRun o s (es ++ es').
Proof. reflexivity. Qed.

(** The monad, one operation at a time. *)
Lemma bind_get {S B} (k : S -> Py S B) (s : S) : bind get k s = k s s.
Proof. unfold bind, get; simpl. apply prepend_nil. Qed.

Lemma bind_put {S B} (k : unit -> Py S B) (s s' : S) :
  bind (put s') k s = k tt s'.
Proof. unfold bind, put; simpl. apply prepend_nil. Qed.

Lemma bind_emit {S B} (e : event) (k : unit -> Py S B) (s : S) :
  bind (emit e) k s = prepend [e] (k tt s).
Proof. reflexivity. Qed.

Lemma bind_ret {S A B} (a : A) (k : A -> Py S B) (s : S) :
  bind (ret a) k s = k a s.
Proof. unfold bind, ret; simpl. apply prepend_nil. Qed.

Lemma bind_raise {S A B} (e : exn) (k : A -> Py S B) (s : S) :
  bind (raise e) k s = mkRun (Raise e) s [].
Proof. reflexivity. Qed.

Lemma bind_lift_Return {S A B} (a : A) (k : A -> Py S B) (s : S) :
  bind (lift (Return a)) k s = k a s.
Proof. unfold bind, lift; simpl. apply prepend_nil. Qed.

Lemma bind_lift_Raise {S A B} (e : exn) (k : A -> Py S B) (s : S) :
  bind (lift (Raise e)) k s = mkRun (Raise e) s [].
Proof. reflexivity. Qed.

Lemma bind_bind {S A B C} (m : Py S A) (k : A -> Py S B) (k' : B -> Py S C) (s : S) :
  bind (bind m k) k' s = bind m (fun a => bind (k a) k') s.
Proof.
  unfold bind. destruct (m s) as [[a|e] s1 es1]; simpl; [|reflexivity].
  destruct (k a s1) as [[b|e] s2 es2]; simpl; [|reflexivity].
  unfold prepend; simpl. now rewrite app_assoc.
Qed.

Lemma bind_run {S A B} (m : Py S A) (k : A -> Py S B) (s s' : S) (a : A)
    (es : list event) :
  m s = mkRun (Return a) s' es -> bind m k s = prepend es (k a s').
Proof. unfold bind. now intros ->. Qed.

Ltac py_norm :=
  repeat (rewrite ?prepend_prepend, ?prepend_mkRun, ?prepend_nil; cbn [app]).

Ltac py_step :=
  repeat (first
    [ rewrite bind_bind
    | rewrite bind_get | rewrite bind_put | rewrite bind_emit
    | rewrite bind_ret | rewrite bind_raise
    | rewrite bind_lift_Return | rewrite bind_lift_Raise ];
  cbv beta).

Section QuerySteps.
Variables (c : Client) (h q : string) (retry : Z).
Variables (response : Response) (rest : list Response).
Hypothesis token : _headers (self c) = Some h.

Lemma query_post :
  query (response :: rest) q retry c
  = prepend [request c q h]
      ((if status_code response =? 429 then
          emit (Print "Too Many Requests for the Server. Sleeping for 30 seconds and then retrying.") ;;
          emit (Sleep 30) ;;
          query rest q 0
        else if status_code response =? 403 then
          emit (Print "Login token expired. Logging in again.") ;;
          _login ;;
          query rest q 0
        else if existsb (Z.eqb (status_code response)) [200; 400; 500] then
          j <- lift (response_json response) ;;
          result <- lift (Result__init__ j) ;;
          ret (Some result, rest)
        else
          if retry >? 0 then
            emit (Print "Retrying in 30 secs") ;;
            emit (Sleep 30) ;;
            query rest q (retry - 1)
          else
            lift (raise_for_status response) ;;
            ret (None, rest)) c).
Proof.
  cbn [query]. rewrite bind_get. unfold headers_of. rewrite token.
  rewrite bind_ret, bind_emit. reflexivity.
Qed.

Lemma unexpected_branches :
  unexpected (status_code response) = true ->
  (status_code response =? 429) = false
  /\ (status_code response =? 403) = false
  /\ existsb (Z.eqb (status_code response)) [200; 400; 500] = false.
Proof.
  clear display_str.
  unfold unexpected. cbn [existsb]. rewrite negb_true_iff, !orb_false_iff.
  tauto.
Qed.

(** One round of [query], branch by branch. *)
Lemma query_step_429 :
  status_code response = 429 ->
  query (response :: rest) q retry c
  = prepend (rate_limited c q h) (query rest q 0 c).
Proof.
  intros Hs. rewrite query_post, Hs. cbn [Z.eqb Pos.eqb].
  py_step. now py_norm.
Qed.

Lemma query_step_403 :
  status_code response = 403 ->
  query (response :: rest) q retry c
  = prepend (token_expired c q h) (bind _login (fun _ => query rest q 0) c).
Proof.
  intros Hs. rewrite query_post, Hs. cbn [Z.eqb Pos.eqb].
  py_step. now py_norm.
Qed.

Lemma query_step_body (v : json) :
  In (status_code response) [200; 400; 500] ->
  body response = Some v ->
  query (response :: rest) q retry c
  = mkRun (match Result__init__ v with
           | Return result => Return (Some result, rest)
           | Raise e => Raise e
           end) c [request c q h].
Proof.
  intros Hs Hb. rewrite query_post.
  assert (E : (status_code response =? 429) = false
              /\ (status_code response =? 403) = false
              /\ existsb (Z.eqb (status_code response)) [200; 400; 500] = true).
  { simpl in Hs. destruct Hs as [<-|[<-|[<-|[]]]]; now cbn. }
  destruct E as (-> & -> & ->).
  unfold response_json. rewrite Hb. py_step.
  destruct (Result__init__ v); py_step; reflexivity.
Qed.

Lemma query_step_answer (v : json) :
  In (status_code response) [200; 400; 500] ->
  body response = Some v ->
  container v = true ->
  query (response :: rest) q retry c
  = mkRun (Return (Some (mkResult v), rest)) c [request c q h].
Proof.
  intros Hs Hb Hv. rewrite (query_step_body v Hs Hb).
  destruct v; try discriminate Hv; reflexivity.
Qed.

Lemma query_step_retry :
  unexpected (status_code response) = true -> 0 < retry ->
  query (response :: rest) q retry c
  = prepend (retrying c q h) (query rest q (retry - 1) c).
Proof.
  intros Hs Hr. rewrite query_post.
  destruct (unexpected_branches Hs) as (-> & -> & ->).
  destruct (Z.gtb_spec retry 0); [|lia].
  py_step. now py_norm.
Qed.

Lemma query_step_give_up :
  unexpected (status_code response) = true -> retry <= 0 ->
  query (response :: rest) q retry c
  = mkRun (match raise_for_status response with
           | Raise e => Raise e
           | Return _ => Return (None, rest)
           end) c [request c q h].
Proof.
  intros Hs Hr. rewrite query_post.
  destruct (unexpected_branches Hs) as (-> & -> & ->).
  destruct (Z.gtb_spec retry 0); [lia|].
  destruct (raise_for_status response); py_step; reflexivity.
Qed.
End QuerySteps.

(** A login the server answers with a token: one request, and the token
    replaces the old one. *)
Lemma login_succeeds (c : Client) (a : Response) (auths : list Response)
    (d : dict) (t : string) :
  auth_json c = a :: auths ->
  raise_for_status a = Return tt ->
  body a = Some (JObj d) ->
  lookup "token" d = Some (JStr t) ->
  _login c = mkRun (Return tt) (logged_in c t auths) [login_request c].
Proof.
  intros Ha Hst Hb Ht. unfold _login, post_login.
  py_step. rewrite Ha. py_step. rewrite Hst. py_step.
  unfold response_json. rewrite Hb. py_step.
  cbn [subscript]. rewrite Ht. py_step.
  unfold set_headers. py_step. reflexivity.
Qed.

Lemma bind_run_raise {S A B} (m : Py S A) (k : A -> Py S B) (s s' : S) (e : exn)
    (es : list event) :
  m s = mkRun (Raise e) s' es -> bind m k s = mkRun (Raise e) s' es.
Proof. unfold bind. now intros ->. Qed.

(** The two ways a login ends. *)
Lemma login_cases (c : Client) :
  (exists a auths d t,
     auth_json c = a :: auths /\ raise_for_status a = Return tt
     /\ body a = Some (JObj d) /\ lookup "token" d = Some (JStr t)
     /\ _login c = mkRun (Return tt) (logged_in c t auths) [login_request c])
  \/ (exists e c',
        _login c = mkRun (Raise e) c' [login_request c] /\ self c' = self c).
Proof.
  destruct (auth_json c) as [|a auths] eqn:Ha.
  { right. exists ConnectionError, c. split; [|reflexivity].
    unfold _login, post_login. py_step. rewrite Ha. py_step. reflexivity. }
  assert (Hpost : forall k : Response -> Py Client unit,
            _login c = prepend [login_request c]
                         ((lift (raise_for_status a) ;;
                           j <- lift (response_json a) ;;
                           token <- lift (subscript j "token") ;;
                           match token with
                           | JStr t => set_headers ("JWT " ++ t)
                           | _ => raise TypeError
                           end) (mkClient (self c) auths))).
  { intros _. unfold _login, post_login. py_step. rewrite Ha. py_step. reflexivity. }
  specialize (Hpost (fun _ => ret tt)).
  assert (Hfail : forall e,
            (lift (raise_for_status a) ;;
             j <- lift (response_json a) ;;
             token <- lift (subscript j "token") ;;
             match token with
             | JStr t => set_headers ("JWT " ++ t)
             | _ => raise TypeError
             end) (mkClient (self c) auths)
            = mkRun (Raise e) (mkClient (self c) auths) [] ->
            exists e c', _login c = mkRun (Raise e) c' [login_request c]
                         /\ self c' = self c).
  { intros e He. exists e, (mkClient (self c) auths).
    rewrite Hpost, He. split; reflexivity. }
  destruct (raise_for_status a) as [[]|e] eqn:Hst;
    [|right; apply (Hfail e); now py_step].
  unfold response_json in *.
  destruct (body a) as [j|] eqn:Hb;
    [|right; apply (Hfail ValueError); now py_step].
  destruct j as [| | | | | |d];
    try (right; apply (Hfail TypeError); now py_step).
  cbn [subscript] in *.
  destruct (lookup "token" d) as [token|] eqn:Ht;
    [|right; apply (Hfail (KeyError "token")); py_step; cbn [subscript];
      rewrite Ht; now py_step].
  destruct token as [| | | |t| |];
    try (right; apply (Hfail TypeError); py_step; cbn [subscript];
         rewrite Ht; now py_step).
  left. exists a, auths, d, t. repeat split; auto.
  now apply (login_succeeds c a auths d t).
Qed.

Section QueryRuns.
Variables (c : Client) (h q : string).
Hypothesis token : _headers (self c) = Some h.

(** A run of 429 answers: each is waited out, then the same query is
    sent again, with the default budget. *)
Lemma query_rate_limited_run (limited rest : list Response) (retry : Z) :
  limited <> [] ->
  Forall (fun r => status_code r = 429) limited ->
  query (limited ++ rest) q retry c
  = prepend (List.concat (map (fun _ => rate_limited c q h) limited))
            (query rest q 0 c).
Proof.
  revert retry. induction limited as [|r l IH]; intros retry Hne Hall.
  - contradiction.
  - inversion Hall as [|? ? Hr Hl]; subst.
    cbn [app map List.concat].
    rewrite (query_step_429 c h q retry r (l ++ rest) token Hr).
    destruct l as [|r' l'].
    + cbn [app map List.concat]. now rewrite app_nil_r.
    + rewrite (IH 0) by (auto; discriminate).
      now rewrite prepend_prepend.
Qed.

(** The same unexpected status on every attempt, with a budget of [n]:
    [n] rounds of waiting and one last request, and then what
    [raise_for_status] makes of that status. *)
Lemma query_unexpected_run (s : Z) (n : nat) :
  unexpected s = true ->
  forall attempts rest : list Response,
    List.length attempts = S n ->
    Forall (fun r => status_code r = s) attempts ->
    query (attempts ++ rest) q (Z.of_nat n) c
    = mkRun (if (400 <=? s) && (s <? 600) then Raise (HTTPError s)
             else Return (None, rest))
            c
            (List.concat (repeat (retrying c q h) n) ++ [request c q h]).
Proof.
  intros Hs. induction n as [|n IH]; intros attempts rest Hlen Hall.
  - destruct attempts as [|r [|? ?]]; try discriminate.
    inversion Hall as [|? ? Hr _]; subst. cbn [app repeat List.concat].
    rewrite (query_step_give_up c h q (Z.of_nat 0) r rest token) by (auto; lia).
    unfold raise_for_status.
    now destruct ((400 <=? status_code r) && (status_code r <? 600)).
  - destruct attempts as [|r attempts]; [discriminate|].
    inversion Hall as [|? ? Hr Hrest]; subst.
    cbn [app repeat List.concat].
    rewrite (query_step_retry c h q (Z.of_nat (S n)) r (attempts ++ rest) token)
      by (auto; lia).
    replace (Z.of_nat (S n) - 1) with (Z.of_nat n) by lia.
    rewrite IH by (auto; simpl in Hlen; lia).
    now rewrite prepend_mkRun, app_assoc.
Qed.
End QueryRuns.

(** C1. While the session holds a token, a response with status 200, 400
    or 500 makes [query] return a [Result] whose payload is the decoded
    JSON body, untransformed, for a body that is a mapping, a list or
    null (what the constructor of [Result] keeps as it is); it is
    returned at once: the only effect is the one request (no sleep, no
    re-login, no second request), the client is unchanged and the rest of
    the script is untouched. *)
Theorem query_returns_decoded_body (c : Client) (h q : string) (retry : Z)
    (response : Response) (rest : list Response) (v : json) :
  _headers (self c) = Some h ->
  In (status_code response) [200; 400; 500] ->
  body response = Some v ->
  container v = true ->
  exists result : Result,
    query (response :: rest) q retry c
    = mkRun (Return (Some result, rest)) c [request c q h]
    /\ data result = v
    /\ logins (events_of (query (response :: rest) q retry c)) = 0%nat
    /\ List.length (requests (events_of (query (response :: rest) q retry c))) = 1%nat.
Proof.
  intros Hh Hs Hb Hv. exists (mkResult v).
  rewrite (query_step_answer c h q retry response rest Hh v Hs Hb Hv).
  repeat split.
Qed.

(** C4. Every 429 is followed by the 30 second sleep and a new request
    for the identical query string, however many 429 answers come in a
    row; after two of them the third answer is returned as usual. *)
Theorem query_waits_out_every_429 (c : Client) (h q : string) (retry : Z) :
  _headers (self c) = Some h ->
  (forall limited rest : list Response,
     limited <> [] ->
     Forall (fun r => status_code r = 429) limited ->
     query (limited ++ rest) q retry c
     = prepend (List.concat
                  (map (fun _ => [request c q h;
                                  Print "Too Many Requests for the Server. Sleeping for 30 seconds and then retrying.";
                                  Sleep 30]) limited))
               (query rest q 0 c))
  /\ (forall (r1 r2 r3 : Response) (rest : list Response) (v : json),
        status_code r1 = 429 -> status_code r2 = 429 ->
        In (status_code r3) [200; 400; 500] -> body r3 = Some v ->
        container v = true ->
        query (r1 :: r2 :: r3 :: rest) q retry c
        = mkRun (Return (Some (mkResult v), rest)) c
                (rate_limited c q h ++ rate_limited c q h ++ [request c q h])).
Proof.
  intros Hh. split.
  - intros limited rest Hne Hall.
    now apply query_rate_limited_run.
  - intros r1 r2 r3 rest v H1 H2 H3 Hb Hv.
    change (r1 :: r2 :: r3 :: rest) with ([r1; r2] ++ r3 :: rest)%list.
    rewrite (query_rate_limited_run c h q Hh [r1; r2] (r3 :: rest) retry)
      by (try discriminate; repeat constructor; assumption).
    rewrite (query_step_answer c h q 0 r3 rest Hh v H3 Hb Hv).
    cbn [map List.concat]. rewrite prepend_mkRun, app_nil_r, <- app_assoc.
    reflexivity.
Qed.

(** C2. A 403 answer triggers one re-login: one login request, whether
    the login succeeds or not. When it fails, its error is raised and the
    query is not sent again. When it succeeds, the same query is sent
    again, once, with the new token (and the default budget); and when
    that request is answered with 200 (and a body that is a mapping, a
    list or null), the call returns what it would have returned had the
    first request been answered so: one login and two requests for the
    same query in all. *)
Theorem query_403_logs_in_once_and_retries (c : Client) (h q : string)
    (retry : Z) (r403 : Response) (rest : list Response) :
  _headers (self c) = Some h ->
  status_code r403 = 403 ->
  query (r403 :: rest) q retry c
  = prepend [request c q h; Print "Login token expired. Logging in again."]
            (bind _login (fun _ => query rest q 0) c)
  /\ events_of (_login c) = [login_request c]
  /\ (forall e : exn,
        outcome_of (_login c) = Raise e ->
        outcome_of (query (r403 :: rest) q retry c) = Raise e
        /\ events_of (query (r403 :: rest) q retry c)
           = [request c q h; Print "Login token expired. Logging in again.";
              login_request c])
  /\ (forall (a : Response) (auths : list Response) (d : dict) (t : string),
        auth_json c = a :: auths ->
        raise_for_status a = Return tt ->
        body a = Some (JObj d) ->
        lookup "token" d = Some (JStr t) ->
        query (r403 :: rest) q retry c
        = prepend [request c q h; Print "Login token expired. Logging in again.";
                   login_request c]
                  (query rest q 0 (logged_in c t auths))
        /\ (forall (r200 : Response) (rest' : list Response) (v : json),
              rest = r200 :: rest' ->
              status_code r200 = 200 -> body r200 = Some v ->
              container v = true ->
              outcome_of (query (r403 :: rest) q retry c)
              = outcome_of (query rest q retry c)
              /\ outcome_of (query (r403 :: rest) q retry c)
                 = Return (Some (mkResult v), rest')
              /\ logins (events_of (query (r403 :: rest) q retry c)) = 1%nat
              /\ requests (events_of (query (r403 :: rest) q retry c))
                 = [request c q h; request c q ("JWT " ++ t)])).
Proof.
  intros Hh Hs.
  pose proof (query_step_403 c h q retry r403 rest Hh Hs) as Hstep.
  split; [exact Hstep|].
  split; [|split].
  - destruct (login_cases c) as [(a & auths & d & t & _ & _ & _ & _ & ->)
                                |(e & c' & -> & _)]; reflexivity.
  - intros e He. rewrite Hstep.
    destruct (login_cases c) as [(a & auths & d & t & _ & _ & _ & _ & Hrun)
                                |(e' & c' & Hrun & _)];
      rewrite Hrun in He; [discriminate He|].
    injection He as ->.
    rewrite (bind_run_raise _ _ _ _ _ _ Hrun). split; reflexivity.
  - intros a auths d t Ha Hst Hb Ht.
    assert (Hretry : query (r403 :: rest) q retry c
            = prepend [request c q h; Print "Login token expired. Logging in again.";
                       login_request c]
                      (query rest q 0 (logged_in c t auths))).
    { rewrite Hstep.
      rewrite (bind_run _ _ _ _ _ _ (login_succeeds c a auths d t Ha Hst Hb Ht)).
      now rewrite prepend_prepend. }
    split; [exact Hretry|].
    intros r200 rest' v -> H200 Hv Hc.
    assert (Hin : In (status_code r200) [200; 400; 500]) by (rewrite H200; now left).
    rewrite Hretry.
    rewrite (query_step_answer (logged_in c t auths) ("JWT " ++ t) q 0 r200 rest'
               eq_refl v Hin Hv Hc).
    rewrite (query_step_answer c h q retry r200 rest' Hh v Hin Hv Hc).
    repeat split.
Qed.

(** C3. For a status outside 200, 400, 500, 429 and 403 and a budget of
    0, [query] is to raise. On 204 it does not: its last branch calls
    [raise_for_status], which raises for the 4xx and 5xx statuses only, so
    the function falls through and returns [None], after the one request. *)
Lemma query_204_returns_None :
  unexpected 204 = true
  /\ query [bare 204] example_query 0 example_client
     = mkRun (Return (None, [])) example_client
             [request example_client example_query "JWT t0"]
  /\ ~ (exists e, outcome_of (query [bare 204] example_query 0 example_client)
                  = Raise e).
Proof.
  split; [reflexivity|]. split; [reflexivity|].
  intros [e He]. discriminate He.
Qed.

(** The retry budget. For a status outside 200, 400, 500, 429 and 403
    that comes back on every attempt, [query] with a budget of [n] makes
    exactly [n] retries, each after printing, sleeping 30 seconds and
    taking one off the budget, so [n + 1] requests in all and none but
    the first with a budget of 0; when the status is an error status (400
    to 599) it then raises the HTTP error of that status. *)
Theorem query_retries_then_raises (c : Client) (h q : string) (s : Z) (n : nat)
    (attempts rest : list Response) :
  _headers (self c) = Some h ->
  unexpected s = true ->
  List.length attempts = S n ->
  Forall (fun r => status_code r = s) attempts ->
  events_of (query (attempts ++ rest) q (Z.of_nat n) c)
  = (List.concat (repeat [request c q h; Print "Retrying in 30 secs"; Sleep 30] n)
     ++ [request c q h])%list
  /\ List.length (requests (events_of (query (attempts ++ rest) q (Z.of_nat n) c)))
     = S n
  /\ (400 <= s < 600 ->
      outcome_of (query (attempts ++ rest) q (Z.of_nat n) c) = Raise (HTTPError s)).
Proof.
  intros Hh Hs Hlen Hall.
  rewrite (query_unexpected_run c h q Hh s n Hs attempts rest Hlen Hall).
  cbn [events_of outcome_of]. repeat split.
  - unfold requests. rewrite filter_app. cbn [filter is_request request].
    rewrite length_app. cbn [List.length].
    clear. induction n as [|n IH]; [reflexivity|].
    cbn [repeat List.concat retrying app filter is_request request List.length].
    cbn [List.length] in IH. lia.
  - intros [Hlo Hhi].
    destruct (Z.leb_spec 400 s); [|lia]. destruct (Z.ltb_spec s 600); [|lia].
    reflexivity.
Qed.

(** C10. The calls [query] makes to itself after a 429 or a 403 do not
    pass the budget on: whatever budget [n > 0] the caller gave, an
    unexpected error status on the request that follows raises at once,
    without a retry, although the same status on the first request would
    have been retried. *)
Theorem query_drops_budget_after_429_or_403 (c : Client) (h q : string) (n : Z)
    (r1 r2 : Response) (rest : list Response) :
  _headers (self c) = Some h ->
  0 < n ->
  unexpected (status_code r2) = true ->
  400 <= status_code r2 < 600 ->
  (status_code r1 = 429 ->
   query (r1 :: r2 :: rest) q n c
   = mkRun (Raise (HTTPError (status_code r2))) c
           (rate_limited c q h ++ [request c q h]))
  /\ (forall (a : Response) (auths : list Response) (d : dict) (t : string),
        status_code r1 = 403 ->
        auth_json c = a :: auths -> raise_for_status a = Return tt ->
        body a = Some (JObj d) -> lookup "token" d = Some (JStr t) ->
        query (r1 :: r2 :: rest) q n c
        = mkRun (Raise (HTTPError (status_code r2))) (logged_in c t auths)
                (token_expired c q h
                 ++ [login_request c; request c q ("JWT " ++ t)]))
  /\ query (r2 :: rest) q n c = prepend (retrying c q h) (query rest q (n - 1) c).
Proof.
  intros Hh Hn Hu [Hlo Hhi].
  assert (Hraise : raise_for_status r2 = Raise (HTTPError (status_code r2))).
  { unfold raise_for_status.
    destruct (Z.leb_spec 400 (status_code r2)); [|lia].
    destruct (Z.ltb_spec (status_code r2) 600); [|lia]. reflexivity. }
  repeat split.
  - intros H1.
    rewrite (query_step_429 c h q n r1 (r2 :: rest) Hh H1).
    rewrite (query_step_give_up c h q 0 r2 rest Hh Hu) by lia.
    now rewrite Hraise.
  - intros a auths d t H1 Ha Hst Hb Ht.
    rewrite (query_step_403 c h q n r1 (r2 :: rest) Hh H1).
    rewrite (bind_run _ _ _ _ _ _ (login_succeeds c a auths d t Ha Hst Hb Ht)).
    rewrite (query_step_give_up (logged_in c t auths) ("JWT " ++ t) q 0 r2 rest
               eq_refl Hu) by lia.
    now rewrite Hraise.
  - now apply query_step_retry.
Qed.

(* ===================================================================== *)
(** * Properties of the loop executor *)
(* ===================================================================== *)

Lemma bind_ret_r {S A} (m : Py S A) (s : S) : bind m (fun a => ret a) s = m s.
Proof.
  unfold bind, ret, prepend. destruct (m s) as [[a|e] s' es]; simpl;
    [now rewrite app_nil_r | reflexivity].
Qed.

Lemma lookup_replace_field (key : string) (v : json) (d : dict) :
  lookup key (replace_field key v d)
  = match lookup key d with Some _ => Some v | None => None end.
Proof.
  induction d as [|[k x] d IH]; simpl; [reflexivity|].
  rewrite String.eqb_sym.
  destruct (String.eqb_spec key k) as [->|Hne]; simpl.
  - now rewrite String.eqb_refl.
  - destruct (String.eqb_spec key k); [contradiction | exact IH].
Qed.

(** The merged result holds the records of all the pages, in order. *)
Lemma records_merge (source : string) (p : json) (ps : list json) :
  records source p <> [] \/ ps = [] ->
  records source (merge source (p :: ps))
  = List.concat (map (records source) (p :: ps)).
Proof.
  clear display_str.
  intros H.
  assert (Hnil : records source p = [] -> ps = []) by tauto.
  destruct p as [| | | | | |d];
    try (rewrite (Hnil eq_refl); cbn; reflexivity).
  cbn [merge]. unfold records at 1. cbn [subscript].
  rewrite lookup_replace_field.
  destruct (lookup source d) as [v|] eqn:E; [reflexivity|].
  assert (Hp : records source (JObj d) = []).
  { unfold records. cbn [subscript]. now rewrite E. }
  rewrite (Hnil Hp). cbn [map List.concat]. now rewrite Hp.
Qed.

Lemma query_pages_done (fuel : nat) (server : list Response) (q source : string)
    (limit : Z) (st : PaginationState) (c : Client) :
  done st = true ->
  query_pages fuel server q source limit st c = mkRun (Return (Some st)) c [].
Proof. intros H. destruct fuel; cbn [query_pages]; now rewrite H. Qed.

(** A page that has records is a mapping. *)
Lemma records_container (source : string) (p : json) :
  records source p <> [] -> container p = true.
Proof. destruct p; cbn; auto; intros H; now contradiction H. Qed.

Section LoopRuns.
Variables (c : Client) (h q source : string) (limit : Z).
Hypothesis token : _headers (self c) = Some h.

(** One round of the loop on a page the server answers with status 200. *)
Lemma query_pages_round (fuel : nat) (page : json) (rest : list Response)
    (st : PaginationState) :
  container page = true ->
  done st = false ->
  query_pages (S fuel) (answer 200 page :: rest) q source limit st c
  = prepend [request c (paginate q limit (offset st)) h]
            (query_pages fuel rest q source limit
                         (next_state source limit st page) c).
Proof.
  intros Hc Hd. cbn [query_pages]. rewrite Hd.
  rewrite (bind_run _ _ _ _ _ _
             (query_step_answer c h (paginate q limit (offset st)) 0
                (answer 200 page) rest token page (or_introl eq_refl) eq_refl Hc)).
  reflexivity.
Qed.

(** Full pages and then a short one: one request per page, at offsets one
    page size apart, and the loop is done. *)
Lemma query_pages_run (fulls : list json) (last : json) (rest : list Response) :
  Forall (fun p => Z.of_nat (List.length (records source p)) = limit) fulls ->
  Z.of_nat (List.length (records source last)) < limit ->
  container last = true ->
  forall (fuel : nat) (st : PaginationState),
    (List.length fulls < fuel)%nat ->
    done st = false ->
    Forall (fun p => forall t, declared_total p = Some t ->
                               offset st + limit * Z.of_nat (List.length fulls) < t)
           fulls ->
    query_pages fuel (map (answer 200) (fulls ++ [last]) ++ rest) q source limit st c
    = mkRun (Return (Some (mkPagination
                             (offset st + limit * Z.of_nat (S (List.length fulls)))
                             (accumulated st ++ fulls ++ [last])
                             true)))
            c
            (page_requests c q h limit
               (page_offsets (offset st) limit (S (List.length fulls)))).
Proof.
  intros Hfull Hshort Hlast.
  assert (Hpos : 0 < limit) by lia.
  induction Hfull as [|p fulls Hp Hfull IH]; intros fuel st Hfuel Hd Htot.
  - destruct fuel as [|fuel]; [inversion Hfuel|].
    assert (Hnext : next_state source limit st last
                    = mkPagination (offset st + limit * Z.of_nat 1)
                                   (accumulated st ++ [last]) true).
    { unfold next_state.
      destruct (Z.ltb_spec (Z.of_nat (List.length (records source last))) limit);
        [|lia].
      cbn [orb]. f_equal. lia. }
    cbn [app map]. rewrite (query_pages_round fuel last rest st Hlast Hd), Hnext.
    rewrite query_pages_done by reflexivity.
    reflexivity.
  - destruct fuel as [|fuel]; [inversion Hfuel|].
    pose proof (Forall_inv Htot) as Htp. pose proof (Forall_inv_tail Htot) as Htot'.
    cbv beta in Htp.
    assert (Hnext : next_state source limit st p
                    = mkPagination (offset st + limit) (accumulated st ++ [p]) false).
    { unfold next_state. rewrite Hp.
      destruct (Z.ltb_spec limit limit); [lia|]. cbn [orb].
      destruct (declared_total p) as [t|]; [|reflexivity].
      specialize (Htp t eq_refl). cbn [List.length] in Htp.
      destruct (Z.leb_spec t (offset st + limit)); [nia | reflexivity]. }
    assert (Hcp : container p = true).
    { apply (records_container source). intros E. rewrite E in Hp. cbn in Hp. lia. }
    cbn [app map]. rewrite (query_pages_round fuel p _ st Hcp Hd), Hnext.
    rewrite IH.
    + rewrite prepend_mkRun.
      cbn [List.length page_offsets page_requests map app offset accumulated].
      f_equal. do 2 f_equal. f_equal.
      * lia.
      * now rewrite <- app_assoc.
    + cbn [List.length] in Hfuel. lia.
    + reflexivity.
    + cbn [offset]. eapply Forall_impl; [|exact Htot'].
      intros p' Hp' t Ht. specialize (Hp' t Ht). cbn [List.length] in Hp'. lia.
Qed.
End LoopRuns.

Lemma outcome_of_prepend {S A} (es : list event) (r : run S A) :
  outcome_of (prepend es r) = outcome_of r.
Proof. reflexivity. Qed.

(** A call of [query] that returns has used up at least one response. *)
Lemma query_consumes (server : list Response) :
  forall (q : string) (retry : Z) (c : Client) (res : option Result)
         (server' : list Response),
    outcome_of (query server q retry c) = Return (res, server') ->
    (List.length server' < List.length server)%nat.
Proof.
  induction server as [|r rest IH]; intros q retry c res server' H.
  - cbn [query] in H. rewrite bind_get in H. unfold headers_of in H.
    destruct (_headers (self c)); cbn in H; discriminate H.
  - destruct (_headers (self c)) as [h|] eqn:Hh.
    + rewrite (query_post c h q retry r rest Hh), outcome_of_prepend in H.
      cbn [List.length].
      destruct (status_code r =? 429).
      { rewrite !bind_emit, !outcome_of_prepend in H.
        apply IH in H. lia. }
      destruct (status_code r =? 403).
      { rewrite bind_emit, outcome_of_prepend in H. unfold bind in H.
        destruct (outcome_of (_login c)); [|discriminate H].
        rewrite outcome_of_prepend in H. apply IH in H. lia. }
      destruct (existsb (Z.eqb (status_code r)) [200; 400; 500]).
      { unfold response_json in H. destruct (body r) as [j|]; [|discriminate H].
        rewrite bind_lift_Return in H.
        destruct (Result__init__ j); [|discriminate H].
        rewrite bind_lift_Return in H. injection H as _ <-. lia. }
      destruct (retry >? 0).
      { rewrite !bind_emit, !outcome_of_prepend in H.
        apply IH in H. lia. }
      destruct (raise_for_status r); cbn in H; [|discriminate H].
      injection H as _ <-. lia.
    + cbn [query] in H. rewrite bind_get in H. unfold headers_of in H.
      rewrite Hh in H. discriminate H.
Qed.

(** The loop never runs out of fuel when it has more of it than the
    script has responses. *)
Lemma query_pages_fuel (q source : string) (limit : Z) (fuel : nat) :
  forall (server : list Response) (st : PaginationState) (c : Client),
    (List.length server < fuel)%nat ->
    outcome_of (query_pages fuel server q source limit st c) <> Return None.
Proof.
  induction fuel as [|fuel IH]; intros server st c Hfuel; [lia|].
  cbn [query_pages]. destruct (done st); [discriminate|].
  unfold bind.
  destruct (outcome_of (query server (paginate q limit (offset st)) 0 c))
    as [[res server']|e] eqn:E; [|discriminate].
  apply query_consumes in E. cbn [fst snd].
  destruct res as [res|]; [|discriminate].
  rewrite outcome_of_prepend. apply IH. lia.
Qed.

(** [query_iterative] always comes to an end: it returns a result or
    raises. *)
Lemma query_iterative_total (server : list Response) (q source : string)
    (limit : Z) (c : Client) :
  (exists result, outcome_of (query_iterative server q source limit c)
                  = Return (Some result))
  \/ (exists e, outcome_of (query_iterative server q source limit c) = Raise e).
Proof.
  unfold query_iterative, bind.
  pose proof (query_pages_fuel q source limit (S (List.length server)) server
                (mkPagination 0 [] false) c (Nat.lt_succ_diag_r _)) as Hfuel.
  destruct (outcome_of (query_pages (S (List.length server)) server q source limit
                                    (mkPagination 0 [] false) c))
    as [[st|]|e]; [left | contradiction | right]; eexists; reflexivity.
Qed.

(** The loop query over full pages followed by a short one. *)
Lemma query_iterative_run (c : Client) (h q source : string) (limit : Z)
    (fulls : list json) (last : json) (rest : list Response) :
  _headers (self c) = Some h ->
  Forall (fun p => Z.of_nat (List.length (records source p)) = limit) fulls ->
  Z.of_nat (List.length (records source last)) < limit ->
  container last = true ->
  Forall (fun p => forall t, declared_total p = Some t ->
                             limit * Z.of_nat (List.length fulls) < t) fulls ->
  query_iterative (map (answer 200) (fulls ++ [last]) ++ rest) q source limit c
  = mkRun (Return (Some (mkResult (merge source (fulls ++ [last])))))
          c
          (page_requests c q h limit
             (page_offsets 0 limit (S (List.length fulls)))).
Proof.
  intros Hh Hfull Hshort Hlast Htot. unfold query_iterative.
  assert (Hfuel : (List.length fulls
                   < S (List.length (map (answer 200) (fulls ++ [last]) ++ rest)))%nat).
  { rewrite length_app, length_map, length_app. lia. }
  rewrite (bind_run _ _ _ _ _ _
             (query_pages_run c h q source limit Hh fulls last rest Hfull Hshort
                Hlast _ (mkPagination 0 [] false) Hfuel eq_refl Htot)).
  cbv beta iota. unfold ret. rewrite prepend_mkRun, app_nil_r. reflexivity.
Qed.

(** C5. A loop query served as pages of 500, 500 and 237 records, with a
    page size of 500, sends exactly three page requests, at the offsets
    0, 500 and 1000; it stops there because the third page is short, and
    the merged result has 1237 records. When the first page (a mapping, a
    list or null, as the constructor of [Result] takes it) is already
    shorter than the page size, exactly one request is sent. *)
Theorem loop_query_stops_on_short_page (c : Client) (h text source : string)
    (lazy_complete : string -> string) (rest : list Response) :
  _headers (self c) = Some h ->
  (forall p1 p2 p3 : json,
     List.length (records source p1) = 500%nat ->
     List.length (records source p2) = 500%nat ->
     List.length (records source p3) = 237%nat ->
     (forall t, declared_total p1 = Some t -> 1000 < t) ->
     (forall t, declared_total p2 = Some t -> 1000 < t) ->
     exists merged : Result,
       _handle_query lazy_complete
                     (answer 200 p1 :: answer 200 p2 :: answer 200 p3 :: rest)
                     source 500 text true c
       = mkRun (Return (Some merged)) c
               [request c (lazy_complete text ++ " limit 500 skip 0") h;
                request c (lazy_complete text ++ " limit 500 skip 500") h;
                request c (lazy_complete text ++ " limit 500 skip 1000") h]
       /\ records source (data merged)
          = (records source p1 ++ records source p2 ++ records source p3)%list
       /\ record_count source merged = 1237)
  /\ (forall (limit : Z) (p : json),
        Z.of_nat (List.length (records source p)) < limit ->
        container p = true ->
        exists merged : Result,
          _handle_query lazy_complete (answer 200 p :: rest) source limit text true c
          = mkRun (Return (Some merged)) c
                  [request c (paginate (lazy_complete text) limit 0) h]
          /\ records source (data merged) = records source p).
Proof.
  intros Hh. split.
  - intros p1 p2 p3 H1 H2 H3 Ht1 Ht2.
    exists (mkResult (merge source [p1; p2; p3])).
    assert (Hrec : records source (merge source [p1; p2; p3])
                   = (records source p1 ++ records source p2 ++ records source p3)%list).
    { rewrite records_merge.
      - cbn [map List.concat]. now rewrite app_nil_r.
      - left. intros E. rewrite E in H1. discriminate H1. }
    repeat split.
    + unfold _handle_query. cbn [negb]. rewrite bind_ret_r.
      apply (query_iterative_run c h (lazy_complete text) source 500
               [p1; p2] p3 rest Hh).
      * repeat constructor; lia.
      * lia.
      * apply (records_container source). intros E. rewrite E in H3.
        discriminate H3.
      * repeat constructor; cbn [List.length]; assumption.
    + exact Hrec.
    + unfold record_count. cbn [data]. rewrite Hrec, !length_app, H1, H2, H3.
      reflexivity.
  - intros limit p Hshort Hp.
    exists (mkResult (merge source [p])). split.
    + unfold _handle_query. cbn [negb]. rewrite bind_ret_r.
      apply (query_iterative_run c h (lazy_complete text) source limit
               [] p rest Hh); [constructor | exact Hshort | exact Hp | constructor].
    + cbn [data]. rewrite records_merge by now right.
      cbn [map List.concat]. apply app_nil_r.
Qed.

(* ===================================================================== *)
(** * More on class Result *)
(* ===================================================================== *)

Lemma keys_and_count_items_keys (self : Result) (xs : list string)
    (counts : list (string * Z)) :
  keys_and_count_items self xs = Return counts -> map fst counts = xs.
Proof.
  revert counts. induction xs as [|x xs IH]; simpl; intros counts H.
  - now injection H as <-.
  - destruct (subscript (data self) x); [|discriminate].
    destruct (len a); [|discriminate].
    destruct (keys_and_count_items self xs) as [rest|]; [|discriminate].
    injection H as <-. simpl. now rewrite (IH rest eq_refl).
Qed.

(** X1. Whenever [keys_and_count()] returns, it has one pair per
    top-level key, and the keys of its pairs are what [keys()] returns,
    in the same order. *)
Theorem keys_and_count_lists_keys (result : Result) (counts : list (string * Z)) :
  outcome_of (keys_and_count result) = Return counts ->
  outcome_of (keys result) = Return (map fst counts)
  /\ state_of (keys_and_count result) = result.
Proof.
  unfold keys_and_count, keys. rewrite !bind_get.
  destruct result as [payload]. cbn [data].
  destruct payload; cbn [keys_of]; try (rewrite bind_lift_Raise; discriminate).
  rewrite bind_lift_Return. unfold lift. cbn [outcome_of state_of].
  intros H. apply keys_and_count_items_keys in H. rewrite H. auto.
Qed.

Lemma keys_and_count_lists_keys_witness :
  outcome_of (keys (mkResult example_payload)) = Return ["publications"; "_stats"].
Proof.
  apply (keys_and_count_lists_keys (mkResult example_payload)
           [("publications", 2); ("_stats", 1)] eq_refl).
Defined.

Lemma lookup_Some_keys (d : dict) (k : string) :
  In k (dict_keys d) -> exists v, lookup k d = Some v.
Proof.
  intros Hin. destruct (lookup k d) as [v|] eqn:E; [now exists v|].
  apply lookup_None_iff in E. contradiction.
Qed.

Lemma len_raises_TypeError (v : json) (e : exn) : len v = Raise e -> e = TypeError.
Proof. destruct v; simpl; intros H; now inversion H. Qed.

Lemma keys_and_count_items_raise (d : dict) (xs : list string) :
  (forall x, In x xs -> In x (dict_keys d)) ->
  (forall e, keys_and_count_items (mkResult (JObj d)) xs = Raise e -> e = TypeError)
  /\ ((exists e, keys_and_count_items (mkResult (JObj d)) xs = Raise e)
      <-> exists k v, In k xs /\ lookup k d = Some v /\ len v = Raise TypeError).
Proof.
  induction xs as [|x xs IH]; intros Hxs.
  - split; [discriminate|]. split; [intros [e He]; discriminate
                                   | intros (k & v & [] & _)].
  - destruct (lookup_Some_keys d x (Hxs x (or_introl eq_refl))) as [v Hv].
    destruct IH as [IHe IHiff]; [intros y Hy; apply Hxs; now right|].
    cbn [keys_and_count_items data subscript]. rewrite Hv.
    destruct (len v) as [n|e0] eqn:Hlen.
    + destruct (keys_and_count_items (mkResult (JObj d)) xs) as [rest|e1] eqn:Hrest.
      * split; [discriminate|]. split; [intros [e He]; discriminate|].
        intros (k & w & [<-|Hin] & Hk & Hw).
        -- rewrite Hv in Hk. injection Hk as <-. rewrite Hlen in Hw. discriminate.
        -- destruct IHiff as [_ Hback].
           destruct (Hback (ex_intro _ k (ex_intro _ w (conj Hin (conj Hk Hw)))))
             as [e He]. discriminate He.
      * split; [intros e He; injection He as <-; now apply IHe|].
        split; [|intros _; now exists e1].
        intros _. destruct IHiff as [Hfwd _].
        destruct (Hfwd (ex_intro _ e1 eq_refl)) as (k & w & Hin & Hk & Hw).
        exists k, w. split; [now right | now split].
    + pose proof (len_raises_TypeError v e0 Hlen) as ->.
      split; [intros e He; now injection He as <-|].
      split; [|intros _; now exists TypeError].
      intros _. exists x, v. split; [now left | now split].
Qed.

(** X2. On a mapping, the only way [keys_and_count()] fails is a
    [TypeError], and it fails exactly when some top-level value has no
    length (a number, a boolean or null). *)
Theorem keys_and_count_raises_iff (d : dict) :
  (forall e, outcome_of (keys_and_count (mkResult (JObj d))) = Raise e ->
             e = TypeError)
  /\ ((exists e, outcome_of (keys_and_count (mkResult (JObj d))) = Raise e)
      <-> exists k v, lookup k d = Some v /\ len v = Raise TypeError).
Proof.
  unfold keys_and_count. rewrite bind_get. cbn [data keys_of].
  rewrite bind_lift_Return. unfold lift. cbn [outcome_of].
  destruct (keys_and_count_items_raise d (dict_keys d) (fun x H => H)) as [He Hiff].
  split; [exact He|]. rewrite Hiff. split.
  - intros (k & v & _ & Hk & Hv). eauto.
  - intros (k & v & Hk & Hv). exists k, v. repeat split; auto.
    destruct (in_dec string_dec k (dict_keys d)) as [Hin|Hout]; [exact Hin|].
    apply lookup_None_iff in Hout. rewrite Hout in Hk. discriminate.
Qed.

Lemma existsb_is_str (key : string) (items : list json) :
  existsb (is_str key) items = true <-> In (JStr key) items.
Proof.
  rewrite existsb_exists. split.
  - intros (v & Hin & Hv). destruct v; try discriminate.
    apply String.eqb_eq in Hv. now subst.
  - intros Hin. exists (JStr key). split; [exact Hin|]. apply String.eqb_refl.
Qed.

(** X3. On a payload that is a list, key-style access never returns an
    item: a key that is not an element of the list gives the sentinel
    [False], and a key that is an element raises [TypeError] (membership
    succeeds, indexing a list by a string does not). *)
Theorem getitem_on_list_payload (items : list json) (key : string) :
  (In (JStr key) items ->
   outcome_of (__getitem__ key (mkResult (JArr items))) = Raise TypeError)
  /\ (~ In (JStr key) items ->
      outcome_of (__getitem__ key (mkResult (JArr items))) = Return False_).
Proof.
  unfold __getitem__. rewrite bind_get. cbn [data contains].
  rewrite bind_lift_Return.
  destruct (existsb (is_str key) items) eqn:E.
  - apply existsb_is_str in E. split; [reflexivity | contradiction].
  - split; [|reflexivity].
    intros Hin. apply existsb_is_str in Hin. congruence.
Qed.

Lemma getitem_on_list_payload_witness :
  outcome_of (__getitem__ "pub.1" (mkResult (JArr [JStr "pub.1"; JStr "pub.2"])))
    = Raise TypeError
  /\ outcome_of (__getitem__ "pub.3" (mkResult (JArr [JStr "pub.1"; JStr "pub.2"])))
     = Return False_.
Proof.
  split.
  - apply (proj1 (getitem_on_list_payload [JStr "pub.1"; JStr "pub.2"] "pub.1")).
    simpl. tauto.
  - apply (proj2 (getitem_on_list_payload [JStr "pub.1"; JStr "pub.2"] "pub.3")).
    simpl. intros [H|[H|[]]]; discriminate H.
Defined.

Lemma keys_and_count_raises_iff_witness :
  exists e, outcome_of (keys_and_count
                          (mkResult (JObj [("publications", JArr []);
                                           ("total", JInt 5)]))) = Raise e.
Proof.
  apply (proj2 (proj2 (keys_and_count_raises_iff
                         [("publications", JArr []); ("total", JInt 5)]))).
  exists "total", (JInt 5). split; reflexivity.
Defined.

(* ===================================================================== *)
(** * More on chunks_of *)
(* ===================================================================== *)

(** X4. The sizes that are not positive: with size 0 the generator yields
    nothing, whatever the data holds; with a negative size it raises
    [ValueError]. *)
Theorem chunks_of_without_size {A : Type} (data : list A) (size : Z) :
  (size = 0 -> chunks_of data size = Return [])
  /\ (size < 0 -> chunks_of data size = Raise ValueError).
Proof.
  split.
  - intros ->. unfold chunks_of, chunks_from, islice. cbn.
    now simp chunks_loop.
  - intros Hs. unfold chunks_of. destruct (Z.ltb_spec size 0); [reflexivity | lia].
Qed.

Lemma chunks_of_without_size_witness :
  chunks_of [1; 2; 3] 0 = Return [] /\ chunks_of [1; 2; 3] (-1) = Raise ValueError.
Proof.
  split.
  - apply (proj1 (chunks_of_without_size [1; 2; 3] 0)). reflexivity.
  - apply (proj2 (chunks_of_without_size [1; 2; 3] (-1))). reflexivity.
Defined.

Lemma chunks_from_count {A : Type} (size : nat) (l : list A) :
  (0 < size)%nat ->
  List.length (chunks_from size l) = ((List.length l + size - 1) / size)%nat.
Proof.
  intros Hs.
  apply (chunks_from_rounds size
           (fun l cs => List.length cs = ((List.length l + size - 1) / size)%nat));
    auto.
  - cbn [List.length]. symmetry. apply Nat.div_small. lia.
  - intros l0 Hl0 IH. cbn [List.length]. rewrite IH, length_skipn.
    assert (Hlen : (0 < List.length l0)%nat).
    { destruct l0; [contradiction | cbn; lia]. }
    destruct (Nat.le_gt_cases (List.length l0) size) as [Hle|Hgt].
    + replace (List.length l0 - size + size - 1)%nat with (size - 1)%nat by lia.
      rewrite (Nat.div_small (size - 1)) by lia.
      apply (Nat.div_unique _ _ 1%nat (List.length l0 - 1)%nat); lia.
    + replace (List.length l0 + size - 1)%nat
        with ((List.length l0 - size + size - 1) + 1 * size)%nat by lia.
      rewrite Nat.div_add by lia. lia.
Qed.

(** X5. For a positive size, the number of chunks is the length of the
    data divided by the size, rounded up; in particular no chunk at all
    for empty data. *)
Theorem chunks_of_count {A : Type} (data : list A) (size : Z) :
  0 < size ->
  exists chunks,
    chunks_of data size = Return chunks
    /\ Z.of_nat (List.length chunks)
       = (Z.of_nat (List.length data) + size - 1) / size.
Proof.
  intros Hs. exists (chunks_from (Z.to_nat size) data). split.
  - unfold chunks_of. destruct (Z.ltb_spec size 0); [lia | reflexivity].
  - rewrite chunks_from_count by lia.
    rewrite Nat2Z.inj_div, Nat2Z.inj_sub, Nat2Z.inj_add by lia.
    rewrite Z2Nat.id by lia. reflexivity.
Qed.

Lemma chunks_of_count_witness :
  exists chunks,
    chunks_of [1; 2; 3; 4; 5] 2 = Return chunks
    /\ Z.of_nat (List.length chunks) = (Z.of_nat (List.length [1; 2; 3; 4; 5]) + 2 - 1) / 2.
Proof.
  apply (chunks_of_count [1; 2; 3; 4; 5] 2). reflexivity.
Defined.

Lemma chunks_from_nth {A : Type} (size : nat) :
  (0 < size)%nat ->
  forall (i : nat) (l : list A),
    nth i (chunks_from size l) [] = firstn size (skipn (i * size) l).
Proof.
  intros Hs. induction i as [|i IH]; intros l.
  - cbn [Nat.mul skipn]. destruct l as [|x l].
    + rewrite chunks_from_nil, firstn_nil. reflexivity.
    + rewrite chunks_from_cons by (auto; discriminate). reflexivity.
  - destruct l as [|x l].
    + rewrite chunks_from_nil, skipn_nil, firstn_nil. reflexivity.
    + rewrite chunks_from_cons by (auto; discriminate).
      cbn [nth]. rewrite IH, skipn_skipn.
      replace (i * size + size)%nat with (S i * size)%nat by lia. reflexivity.
Qed.

(** X6. For a positive size, chunk number [i] (from 0) holds the items at
    the positions [i * size] to [(i + 1) * size - 1] of the data, as many
    of them as there are. *)
Theorem chunks_of_nth {A : Type} (data : list A) (size : Z) (i : nat) :
  0 < size ->
  exists chunks,
    chunks_of data size = Return chunks
    /\ nth i chunks [] = firstn (Z.to_nat size) (skipn (i * Z.to_nat size) data).
Proof.
  intros Hs. exists (chunks_from (Z.to_nat size) data). split.
  - unfold chunks_of. destruct (Z.ltb_spec size 0); [lia | reflexivity].
  - apply chunks_from_nth. lia.
Qed.

Lemma chunks_of_nth_witness :
  exists chunks,
    chunks_of [1; 2; 3; 4; 5] 2 = Return chunks
    /\ nth 2 chunks [] = firstn (Z.to_nat 2) (skipn (2 * Z.to_nat 2) [1; 2; 3; 4; 5]).
Proof.
  apply (chunks_of_nth [1; 2; 3; 4; 5] 2 2). reflexivity.
Defined.

Lemma chunks_from_app {A : Type} (size : nat) :
  (0 < size)%nat ->
  forall (k : nat) (l1 l2 : list A),
    List.length l1 = (k * size)%nat ->
    chunks_from size (l1 ++ l2) = (chunks_from size l1 ++ chunks_from size l2)%list.
Proof.
  intros Hs. induction k as [|k IH]; intros l1 l2 Hlen.
  - destruct l1; [|discriminate]. now rewrite chunks_from_nil.
  - assert (Hne : l1 <> []) by (intros ->; cbn in Hlen; lia).
    assert (Hne' : (l1 ++ l2)%list <> []) by (destruct l1; [contradiction | discriminate]).
    rewrite (chunks_from_cons size (l1 ++ l2) Hs Hne').
    rewrite (chunks_from_cons size l1 Hs Hne).
    rewrite firstn_app, skipn_app.
    replace (size - List.length l1)%nat with 0%nat by lia.
    cbn [firstn skipn]. rewrite app_nil_r, <- app_comm_cons. f_equal.
    apply IH. rewrite length_skipn. lia.
Qed.

(** X7. Chunking composes with concatenation at a chunk boundary: when
    the length of the first part is a multiple of the size, the chunks of
    the concatenation are the chunks of the first part followed by the
    chunks of the second. *)
Theorem chunks_of_app {A : Type} (data1 data2 : list A) (size : Z) (k : nat) :
  0 < size ->
  Z.of_nat (List.length data1) = Z.of_nat k * size ->
  exists chunks1 chunks2,
    chunks_of data1 size = Return chunks1
    /\ chunks_of data2 size = Return chunks2
    /\ chunks_of (data1 ++ data2) size = Return (chunks1 ++ chunks2)%list.
Proof.
  intros Hs Hlen.
  exists (chunks_from (Z.to_nat size) data1), (chunks_from (Z.to_nat size) data2).
  unfold chunks_of. destruct (Z.ltb_spec size 0); [lia|].
  repeat split. f_equal. apply chunks_from_app with (k := k); [lia|].
  apply Nat2Z.inj. rewrite Nat2Z.inj_mul, Z2Nat.id; lia.
Qed.

Lemma chunks_of_app_witness :
  exists chunks1 chunks2,
    chunks_of [1; 2; 3; 4] 2 = Return chunks1
    /\ chunks_of [5; 6; 7] 2 = Return chunks2
    /\ chunks_of ([1; 2; 3; 4] ++ [5; 6; 7]) 2 = Return (chunks1 ++ chunks2)%list.
Proof.
  apply (chunks_of_app [1; 2; 3; 4] [5; 6; 7] 2 2); reflexivity.
Defined.

Lemma chunks_from_map {A B : Type} (f : A -> B) (size : nat) (l : list A) :
  chunks_from size (map f l) = map (map f) (chunks_from size l).
Proof.
  destruct size as [|size].
  - unfold chunks_from, islice. cbn. now simp chunks_loop.
  - apply (chunks_from_rounds (S size)
             (fun l cs => chunks_from (S size) (map f l) = map (map f) cs));
      [lia | cbn [map]; now rewrite chunks_from_nil |].
    intros l0 Hl0 IH.
    rewrite chunks_from_cons; [|lia | destruct l0; [contradiction | discriminate]].
    rewrite firstn_map, skipn_map, IH. reflexivity.
Qed.

(** X8. [chunks_of] does not look at the items: chunking the image of the
    data under a function gives the image of the chunks of the data, for
    every size. *)
Theorem chunks_of_map {A B : Type} (f : A -> B) (data : list A) (size : Z) :
  chunks_of (map f data) size
  = match chunks_of data size with
    | Return chunks => Return (map (map f) chunks)
    | Raise e => Raise e
    end.
Proof.
  unfold chunks_of. destruct (size <? 0); [reflexivity|].
  now rewrite chunks_from_map.
Qed.

(* ===================================================================== *)
(** * More on Dsl._login *)
(* ===================================================================== *)

(** X9. [_login] sends exactly one request, whether it succeeds or not,
    and a login that fails leaves the attributes of the object as they
    were: the old token stays. *)
Theorem login_sends_one_request (c : Client) :
  events_of (_login c) = [login_request c]
  /\ (forall e, outcome_of (_login c) = Raise e -> self (state_of (_login c)) = self c).
Proof.
  destruct (login_cases c) as [(a & auths & d & t & _ & _ & _ & _ & ->)
                              |(e & c' & -> & Hself)].
  - split; [reflexivity | discriminate].
  - split; [reflexivity | intros _ _; exact Hself].
Qed.

Lemma login_sends_one_request_witness :
  let c := mkClient (self example_client) [bare 401] in
  outcome_of (_login c) = Raise (HTTPError 401)
  /\ self (state_of (_login c)) = self c.
Proof.
  intros c. split; [reflexivity|].
  apply (proj2 (login_sends_one_request c) (HTTPError 401)). reflexivity.
Defined.

(** X10. [_login] returns only when the answer has a status outside 400
    to 599 and a JSON object body whose [token] is a string; the object
    then holds "JWT " followed by that token, whatever it held before,
    and its url, username and password are unchanged. *)
Theorem login_returns_with_new_token (c : Client) :
  outcome_of (_login c) = Return tt ->
  exists a auths d t,
    auth_json c = a :: auths
    /\ (status_code a < 400 \/ 600 <= status_code a)
    /\ body a = Some (JObj d)
    /\ lookup "token" d = Some (JStr t)
    /\ state_of (_login c)
       = mkClient (mkDsl (_url (self c)) (_username (self c)) (_password (self c))
                         (Some ("JWT " ++ t)))
                  auths.
Proof.
  intros H.
  destruct (login_cases c) as [(a & auths & d & t & Ha & Hst & Hb & Ht & Hrun)
                              |(e & c' & Hrun & _)].
  - exists a, auths, d, t. rewrite Hrun. repeat split; auto.
    unfold raise_for_status in Hst.
    destruct (Z.leb_spec 400 (status_code a)); [|lia].
    destruct (Z.ltb_spec (status_code a) 600); [discriminate | lia].
  - rewrite Hrun in H. discriminate H.
Qed.

Lemma login_returns_with_new_token_witness :
  exists a auths d t,
    auth_json example_client = a :: auths
    /\ (status_code a < 400 \/ 600 <= status_code a)
    /\ body a = Some (JObj d)
    /\ lookup "token" d = Some (JStr t)
    /\ state_of (_login example_client)
       = mkClient (mkDsl (_url (self example_client)) (_username (self example_client))
                         (_password (self example_client)) (Some ("JWT " ++ t)))
                  auths.
Proof.
  apply (login_returns_with_new_token example_client). reflexivity.
Defined.


(* ===================================================================== *)
(** * More on Dsl.query *)
(* ===================================================================== *)

Lemma query_without_token (server : list Response) (q : string) (retry : Z)
    (c : Client) :
  _headers (self c) = None ->
  query server q retry c = mkRun (Raise (AttributeError "_headers")) c [].
Proof.
  intros Hh. destruct server; cbn [query]; rewrite bind_get; unfold headers_of;
    rewrite Hh; now py_step.
Qed.

Lemma query_exhausted (q h : string) (retry : Z) (c : Client) :
  _headers (self c) = Some h ->
  query [] q retry c = mkRun (Raise ConnectionError) c [request c q h].
Proof.
  intros Hh. cbn [query]. rewrite bind_get. unfold headers_of. rewrite Hh.
  now py_step.
Qed.

Lemma status_cases (s : Z) :
  s = 429 \/ s = 403 \/ answerable s = true \/ unexpected s = true.
Proof.
  unfold unexpected, answerable. cbn [existsb].
  destruct (Z.eqb_spec s 429); [now left|].
  destruct (Z.eqb_spec s 403); [now (right; left)|].
  cbn [orb]. destruct (_ || _); [right; right; now left | now (right; right; right)].
Qed.

Lemma answerable_In (s : Z) : answerable s = true -> In s [200; 400; 500].
Proof.
  unfold answerable. cbn [existsb]. rewrite !orb_true_iff, !Z.eqb_eq.
  intros [->|[->|[->|H]]]; simpl; auto; discriminate.
Qed.

(** One round of [query] on a client that holds a token: the nine ways
    it can go. *)
Lemma query_round (c : Client) (h q : string) (retry : Z) (r : Response)
    (rest : list Response) :
  _headers (self c) = Some h ->
  (status_code r = 429
   /\ query (r :: rest) q retry c = prepend (rate_limited c q h) (query rest q 0 c))
  \/ (status_code r = 403
      /\ exists t auths,
           query (r :: rest) q retry c
           = prepend (token_expired c q h ++ [login_request c])
                     (query rest q 0 (logged_in c t auths)))
  \/ (status_code r = 403
      /\ exists e c',
           self c' = self c
           /\ query (r :: rest) q retry c
              = mkRun (Raise e) c' (token_expired c q h ++ [login_request c]))
  \/ (answerable (status_code r) = true
      /\ exists v result,
           body r = Some v /\ Result__init__ v = Return result
           /\ query (r :: rest) q retry c
              = mkRun (Return (Some result, rest)) c [request c q h])
  \/ (answerable (status_code r) = true
      /\ exists v e,
           body r = Some v /\ Result__init__ v = Raise e
           /\ query (r :: rest) q retry c = mkRun (Raise e) c [request c q h])
  \/ (answerable (status_code r) = true /\ body r = None
      /\ query (r :: rest) q retry c = mkRun (Raise ValueError) c [request c q h])
  \/ (unexpected (status_code r) = true /\ 0 < retry
      /\ query (r :: rest) q retry c
         = prepend (retrying c q h) (query rest q (retry - 1) c))
  \/ (unexpected (status_code r) = true /\ retry <= 0
      /\ raise_for_status r = Return tt
      /\ query (r :: rest) q retry c = mkRun (Return (None, rest)) c [request c q h])
  \/ (unexpected (status_code r) = true /\ retry <= 0
      /\ query (r :: rest) q retry c
         = mkRun (Raise (HTTPError (status_code r))) c [request c q h]).
Proof.
  intros Hh.
  destruct (status_cases (status_code r)) as [Hs|[Hs|[Hs|Hs]]].
  - left. split; [exact Hs|]. now apply query_step_429.
  - right. rewrite (query_step_403 c h q retry r rest Hh Hs).
    destruct (login_cases c) as [(a & auths & d & t & _ & _ & _ & _ & Hrun)
                                |(e & c' & Hrun & Hself)].
    + left. split; [exact Hs|]. exists t, auths.
      rewrite (bind_run _ _ _ _ _ _ Hrun). now rewrite prepend_prepend.
    + right. left. split; [exact Hs|]. exists e, c'. split; [exact Hself|].
      rewrite (bind_run_raise _ _ _ _ _ _ Hrun). reflexivity.
  - do 3 right. destruct (body r) as [v|] eqn:Hb.
    + pose proof (query_step_body c h q retry r rest Hh v (answerable_In _ Hs) Hb)
        as Hstep.
      destruct (Result__init__ v) as [result|e] eqn:Hinit.
      * left. split; [exact Hs|]. exists v, result. auto.
      * right. left. split; [exact Hs|]. exists v, e. auto.
    + do 2 right. left. repeat split; auto.
      rewrite (query_post c h q retry r rest Hh).
      unfold answerable in Hs. cbn [existsb] in Hs.
      destruct (Z.eqb_spec (status_code r) 429) as [E|_];
        [rewrite E in Hs; discriminate Hs|].
      destruct (Z.eqb_spec (status_code r) 403) as [E|_];
        [rewrite E in Hs; discriminate Hs|].
      cbn [existsb]. rewrite Hs. unfold response_json. rewrite Hb.
      now py_step.
  - do 6 right. destruct (Z.lt_ge_cases 0 retry) as [Hr|Hr].
    + left. repeat split; auto. now apply query_step_retry.
    + right. rewrite (query_step_give_up c h q retry r rest Hh Hs) by lia.
      unfold raise_for_status.
      destruct ((400 <=? status_code r) && (status_code r <? 600)).
      * right. repeat split; auto; lia.
      * left. repeat split; auto; lia.
Qed.

Lemma count_status_cons (s : Z) (r : Response) (rest : list Response) :
  count_status s (r :: rest)
  = ((if (status_code r =? s)%Z then 1 else 0) + count_status s rest)%nat.
Proof.
  unfold count_status. cbn [filter]. now destruct (status_code r =? s).
Qed.

Lemma count_status_le (s : Z) (rs : list Response) :
  (count_status s rs <= List.length rs)%nat.
Proof. apply filter_length_le. Qed.

Lemma requests_app (es es' : list event) :
  requests (es ++ es') = (requests es ++ requests es')%list.
Proof. apply filter_app. Qed.

Lemma logins_app (es es' : list event) :
  logins (es ++ es') = (logins es + logins es')%nat.
Proof. unfold logins. now rewrite filter_app, length_app. Qed.

Lemma sleeps_app (es es' : list event) :
  sleeps (es ++ es') = (sleeps es ++ sleeps es')%list.
Proof. apply flat_map_app. Qed.

Lemma unexpected_not_handled (s : Z) :
  unexpected s = true -> s <> 429 /\ s <> 403 /\ answerable s = false.
Proof.
  unfold unexpected, answerable. cbn [existsb].
  rewrite negb_true_iff, !orb_false_iff, !Z.eqb_neq. tauto.
Qed.

Lemma answerable_not_waiting (s : Z) :
  answerable s = true -> s <> 429 /\ s <> 403.
Proof. intros H. apply answerable_In in H. simpl in H. lia. Qed.

Ltac query_leaf Hsame :=
  unfold request, logins, requests; cbn;
  split; [apply Hsame | split; [repeat constructor | split; [auto | intros; lia]]].

(** What every run of [query] keeps, by induction on the script. *)
Lemma query_run_inv (server : list Response) :
  forall (q : string) (retry : Z) (c : Client),
    same_credentials (self (state_of (query server q retry c))) (self c)
    /\ Forall (carries (_url (self c) ++ "/api/dsl.json") q)
              (events_of (query server q retry c))
    /\ (count_status 403 server = 0%nat ->
        state_of (query server q retry c) = c
        /\ logins (events_of (query server q retry c)) = 0%nat)
    /\ (count_status 403 server = 0%nat -> count_status 429 server = 0%nat ->
        (List.length (requests (events_of (query server q retry c)))
         <= S (Z.to_nat retry))%nat).
Proof.
  assert (Hsame : forall d, same_credentials d d) by (intros d; now repeat split).
  induction server as [|r rest IH]; intros q retry c;
    (destruct (_headers (self c)) as [h|] eqn:Hh;
     [|rewrite (query_without_token _ q retry c Hh); query_leaf Hsame]).
  - rewrite (query_exhausted q h retry c Hh). query_leaf Hsame.
  - rewrite !count_status_cons.
    destruct (query_round c h q retry r rest Hh)
      as [(Hs & ->)|[(Hs & t & auths & ->)|[(Hs & e & c' & Hself & ->)
         |[(Hs & v & result & _ & _ & ->)|[(Hs & v & e & _ & _ & ->)
         |[(Hs & _ & ->)|[(Hs & Hr & ->)
         |[(Hs & Hr & _ & ->)|(Hs & Hr & ->)]]]]]]]].
    + destruct (IH q 0 c) as (I1 & I2 & I3 & I4). rewrite Hs.
      cbn [state_of events_of prepend Z.eqb Pos.eqb Nat.add].
      split; [exact I1|]. split; [|split].
      * apply Forall_app. split; [|exact I2]. repeat constructor.
      * intros H. destruct (I3 H) as [E1 E2]. split; [exact E1|].
        rewrite logins_app, E2. reflexivity.
      * intros _ H. discriminate H.
    + destruct (IH q 0 (logged_in c t auths)) as (I1 & I2 & _ & _). rewrite Hs.
      cbn [state_of events_of prepend Z.eqb Pos.eqb Nat.add].
      split; [exact I1|]. split; [|split].
      * apply Forall_app. split; [|exact I2]. repeat constructor.
      * intros H. discriminate H.
      * intros H. discriminate H.
    + rewrite Hs. cbn [state_of events_of Z.eqb Pos.eqb Nat.add].
      split; [rewrite Hself; apply Hsame|]. split; [|split].
      * repeat constructor.
      * intros H. discriminate H.
      * intros H. discriminate H.
    + query_leaf Hsame.
    + query_leaf Hsame.
    + query_leaf Hsame.
    + destruct (IH q (retry - 1) c) as (I1 & I2 & I3 & I4).
      destruct (unexpected_not_handled _ Hs) as (H429 & H403 & _).
      apply Z.eqb_neq in H429, H403. rewrite H429, H403.
      cbn [state_of events_of prepend Nat.add].
      split; [exact I1|]. split; [|split].
      * apply Forall_app. split; [|exact I2]. repeat constructor.
      * intros H. destruct (I3 H) as [E1 E2]. split; [exact E1|].
        rewrite logins_app, E2. reflexivity.
      * intros H3 H9. rewrite requests_app, length_app.
        specialize (I4 H3 H9).
        cbn [retrying requests filter is_request request List.length].
        replace (Z.to_nat retry) with (S (Z.to_nat (retry - 1))) by lia. lia.
    + query_leaf Hsame.
    + query_leaf Hsame.
Qed.

(** What a run of [query] that returns has done, by induction on the
    script: the responses it used up, the one it stopped at, and its
    requests, logins and sleeps. *)
Lemma query_returns_inv (server : list Response) :
  forall (q : string) (retry : Z) (c : Client) (res : option Result)
         (server' : list Response),
    outcome_of (query server q retry c) = Return (res, server') ->
    exists (consumed : list Response) (last : Response),
      server = (consumed ++ last :: server')%list
      /\ Forall (fun r => answerable (status_code r) = false) consumed
      /\ match res with
         | Some result =>
             answerable (status_code last) = true
             /\ exists v, body last = Some v /\ Result__init__ v = Return result
         | None =>
             unexpected (status_code last) = true /\ raise_for_status last = Return tt
         end
      /\ List.length (requests (events_of (query server q retry c)))
         = S (List.length consumed)
      /\ logins (events_of (query server q retry c)) = count_status 403 consumed
      /\ sleeps (events_of (query server q retry c))
         = repeat 30 (List.length consumed - count_status 403 consumed).
Proof.
  induction server as [|r rest IH]; intros q retry c res server' H;
    (destruct (_headers (self c)) as [h|] eqn:Hh;
     [|rewrite (query_without_token _ q retry c Hh) in H; discriminate H]).
  - rewrite (query_exhausted q h retry c Hh) in H. discriminate H.
  - destruct (query_round c h q retry r rest Hh)
      as [(Hs & E)|[(Hs & t & auths & E)|[(Hs & e & c' & Hself & E)
         |[(Hs & v & result & Hv & Hinit & E)|[(Hs & v & e & _ & _ & E)
         |[(Hs & _ & E)|[(Hs & Hr & E)
         |[(Hs & Hr & Hst & E)|(Hs & Hr & E)]]]]]]]];
      rewrite E in H |- *; clear E;
      cbn [outcome_of events_of prepend] in H |- *;
      try discriminate H.
    + destruct (IH _ _ _ _ _ H) as (consumed & last & -> & Hc & Hres & Hq & Hl & Hz).
      exists (r :: consumed), last.
      pose proof (count_status_le 403 consumed) as Hle.
      rewrite count_status_cons, requests_app, logins_app, sleeps_app, length_app.
      rewrite Hq, Hl, Hz, Hs.
      cbn [rate_limited request requests logins sleeps filter flat_map
           is_request is_login List.length app Z.eqb Pos.eqb Nat.add].
      repeat split; auto.
      * constructor; [now rewrite Hs | exact Hc].
      * now replace (S (List.length consumed) - count_status 403 consumed)%nat
          with (S (List.length consumed - count_status 403 consumed)) by lia.
    + destruct (IH _ _ _ _ _ H) as (consumed & last & -> & Hc & Hres & Hq & Hl & Hz).
      exists (r :: consumed), last.
      rewrite count_status_cons, requests_app, logins_app, sleeps_app, length_app.
      rewrite Hq, Hl, Hz, Hs.
      cbn [token_expired login_request request requests logins sleeps filter
           flat_map is_request is_login List.length app Z.eqb Pos.eqb Nat.add
           Nat.sub].
      repeat split; auto.
      constructor; [now rewrite Hs | exact Hc].
    + injection H as <- <-. exists [], r. cbn. repeat split; auto.
      exists v. auto.
    + destruct (IH _ _ _ _ _ H) as (consumed & last & -> & Hc & Hres & Hq & Hl & Hz).
      exists (r :: consumed), last.
      pose proof (count_status_le 403 consumed) as Hle.
      destruct (unexpected_not_handled _ Hs) as (_ & H403 & Hna).
      apply Z.eqb_neq in H403.
      rewrite count_status_cons, requests_app, logins_app, sleeps_app, length_app.
      rewrite Hq, Hl, Hz, H403.
      cbn [retrying request requests logins sleeps filter flat_map
           is_request is_login List.length app Nat.add].
      repeat split; auto.
      now replace (S (List.length consumed) - count_status 403 consumed)%nat
        with (S (List.length consumed - count_status 403 consumed)) by lia.
    + injection H as <- <-. exists [], r. cbn. repeat split; auto.
Qed.

(** X11. Every request a call of [query] sends to the query endpoint goes
    to the same url and carries the query string it was given, unchanged,
    however the call ends and whatever logins happen on the way. *)
Theorem query_sends_the_same_query (server : list Response) (q : string)
    (retry : Z) (c : Client) :
  Forall (carries (_url (self c) ++ "/api/dsl.json") q)
         (events_of (query server q retry c)).
Proof. apply (query_run_inv server q retry c). Qed.

(** X12. A call of [query] never changes the url, the username or the
    password of the object; and on a script without a 403 it makes no
    login and leaves the whole client, token included, as it was. *)
Theorem query_keeps_credentials (server : list Response) (q : string)
    (retry : Z) (c : Client) :
  same_credentials (self (state_of (query server q retry c))) (self c)
  /\ (Forall (fun r => status_code r <> 403) server ->
      state_of (query server q retry c) = c
      /\ logins (events_of (query server q retry c)) = 0%nat).
Proof.
  destruct (query_run_inv server q retry c) as (I1 & _ & I3 & _).
  split; [exact I1|]. intros Hall. apply I3.
  clear -Hall. induction Hall as [|r rest Hr _ IH]; [reflexivity|].
  rewrite count_status_cons, IH. apply Z.eqb_neq in Hr. now rewrite Hr.
Qed.

(** What the constructor of [Result] returns holds a mapping, a list or
    null: the data it was given, unless that was a string. *)
Lemma Result_init_returns (v : json) (result : Result) :
  Result__init__ v = Return result ->
  container (data result) = true
  /\ ((forall s, v <> JStr s) -> data result = v).
Proof.
  unfold Result__init__, _check_data. intros H.
  destruct v as [| | | |s| |];
    try discriminate H;
    try (injection H as <-; split; [reflexivity | reflexivity]).
  split; [|intros Hs; now contradiction (Hs s)].
  destruct (display_str s) as [loaded|]; [|discriminate H].
  destruct (container loaded) eqn:E; [|discriminate H].
  injection H as <-. exact E.
Qed.

(** X13. A [Result] that [query] returns was built by the constructor of
    [Result] from the decoded body of the first response of the script
    with status 200, 400 or 500: every response before it has another
    status, and the script that is left starts right after it. Its
    payload is that body itself unless the body is a string, and it is
    always a mapping, a list or null. *)
Theorem query_result_is_first_answer (server : list Response) (q : string)
    (retry : Z) (c : Client) (result : Result) (server' : list Response) :
  outcome_of (query server q retry c) = Return (Some result, server') ->
  exists (consumed : list Response) (last : Response) (v : json),
    server = (consumed ++ last :: server')%list
    /\ Forall (fun r => ~ In (status_code r) [200; 400; 500]) consumed
    /\ In (status_code last) [200; 400; 500]
    /\ body last = Some v
    /\ Result__init__ v = Return result
    /\ ((forall s, v <> JStr s) -> data result = v)
    /\ container (data result) = true.
Proof.
  intros H.
  destruct (query_returns_inv server q retry c _ _ H)
    as (consumed & last & Hs & Hc & [Ha (v & Hb & Hinit)] & _).
  destruct (Result_init_returns v result Hinit) as [Hcont Hdata].
  exists consumed, last, v. repeat split; auto.
  - eapply Forall_impl; [|exact Hc]. cbv beta. intros r Hr Hin.
    unfold answerable in Hr. cbn [existsb] in Hr.
    rewrite !orb_false_iff, !Z.eqb_neq in Hr. simpl in Hin. lia.
  - now apply answerable_In.
Qed.

(** X14. The cost of a call of [query] that returns: one request per
    response it used up, one login per 403 among the responses before the
    last, and one sleep of 30 seconds for each of the others before the
    last. *)
Theorem query_accounting (server : list Response) (q : string) (retry : Z)
    (c : Client) (res : option Result) (server' : list Response) :
  outcome_of (query server q retry c) = Return (res, server') ->
  exists (consumed : list Response) (last : Response),
    server = (consumed ++ last :: server')%list
    /\ List.length (requests (events_of (query server q retry c)))
       = S (List.length consumed)
    /\ logins (events_of (query server q retry c)) = count_status 403 consumed
    /\ sleeps (events_of (query server q retry c))
       = repeat 30 (List.length consumed - count_status 403 consumed).
Proof.
  intros H.
  destruct (query_returns_inv server q retry c _ _ H)
    as (consumed & last & Hs & _ & _ & Hq & Hl & Hz).
  exists consumed, last. auto.
Qed.

(** X15. The budget bounds the retries: on a script without a 429 and
    without a 403, a call with the budget [retry] sends at most
    [retry + 1] requests (one when the budget is not positive), however
    it ends. *)
Theorem query_respects_budget (server : list Response) (q : string) (retry : Z)
    (c : Client) :
  Forall (fun r => status_code r <> 429 /\ status_code r <> 403) server ->
  Z.of_nat (List.length (requests (events_of (query server q retry c))))
  <= Z.max retry 0 + 1.
Proof.
  intros Hall.
  destruct (query_run_inv server q retry c) as (_ & _ & _ & I4).
  assert (Hcount : count_status 403 server = 0%nat /\ count_status 429 server = 0%nat).
  { clear -Hall. induction Hall as [|r rest [H9 H3] _ [IH3 IH9]]; [now split|].
    rewrite !count_status_cons, IH3, IH9.
    apply Z.eqb_neq in H9, H3. now rewrite H9, H3. }
  destruct Hcount as [H3 H9]. specialize (I4 H3 H9). lia.
Qed.

(** X16. When the re-login after a 403 fails, [query] raises the error of
    the login and does not send the query again: its trace is the first
    request, the message and the one login request, and the object keeps
    its attributes, the old token included. *)
Theorem query_403_failed_login (c : Client) (h q : string) (retry : Z)
    (r403 : Response) (rest : list Response) (e : exn) :
  _headers (self c) = Some h ->
  status_code r403 = 403 ->
  outcome_of (_login c) = Raise e ->
  outcome_of (query (r403 :: rest) q retry c) = Raise e
  /\ events_of (query (r403 :: rest) q retry c)
     = [request c q h; Print "Login token expired. Logging in again.";
        login_request c]
  /\ self (state_of (query (r403 :: rest) q retry c)) = self c.
Proof.
  intros Hh Hs He.
  rewrite (query_step_403 c h q retry r403 rest Hh Hs).
  destruct (login_cases c) as [(a & auths & d & t & _ & _ & _ & _ & Hrun)
                              |(e' & c' & Hrun & Hself)].
  - rewrite Hrun in He. discriminate He.
  - rewrite Hrun in He. injection He as ->.
    rewrite (bind_run_raise _ _ _ _ _ _ Hrun). repeat split. exact Hself.
Qed.

(** X17. A response with status 200, 400 or 500 whose body is not JSON
    does not give a [Result]: [query] raises the [ValueError] of
    [response.json()] after the one request, and the client is unchanged. *)
Theorem query_body_not_json (c : Client) (h q : string) (retry : Z)
    (response : Response) (rest : list Response) :
  _headers (self c) = Some h ->
  In (status_code response) [200; 400; 500] ->
  body response = None ->
  query (response :: rest) q retry c = mkRun (Raise ValueError) c [request c q h].
Proof.
  intros Hh Hs Hb.
  assert (Ha : answerable (status_code response) = true).
  { simpl in Hs. destruct Hs as [<-|[<-|[<-|[]]]]; reflexivity. }
  destruct (answerable_not_waiting _ Ha) as [H9 H3].
  destruct (query_round c h q retry response rest Hh)
    as [(Hs' & _)|[(Hs' & _)|[(Hs' & _)|[(_ & v & result & Hv & _)
       |[(_ & v & e & Hv & _)|[(_ & _ & E)
       |[(Hs' & _)|[(Hs' & _)|(Hs' & _)]]]]]]]];
    try contradiction; try exact E;
    try (rewrite Hb in Hv; discriminate Hv);
    destruct (unexpected_not_handled _ Hs') as (_ & _ & Hn); congruence.
Qed.

(** X18. [query] returns [None] only at a response whose status is none
    of 429, 403, 200, 400 and 500 and is outside 400 to 599. *)
Theorem query_returns_None_only_off_range (server : list Response) (q : string)
    (retry : Z) (c : Client) (server' : list Response) :
  outcome_of (query server q retry c) = Return (None, server') ->
  exists (consumed : list Response) (last : Response),
    server = (consumed ++ last :: server')%list
    /\ ~ In (status_code last) [429; 403; 200; 400; 500]
    /\ (status_code last < 400 \/ 600 <= status_code last).
Proof.
  intros H.
  destruct (query_returns_inv server q retry c _ _ H)
    as (consumed & last & Hs & _ & [Hu Hst] & _).
  exists consumed, last. repeat split; auto.
  - destruct (unexpected_not_handled _ Hu) as (H9 & H3 & Ha).
    unfold answerable in Ha. cbn [existsb] in Ha.
    rewrite !orb_false_iff, !Z.eqb_neq in Ha. simpl. lia.
  - unfold raise_for_status in Hst.
    destruct (Z.leb_spec 400 (status_code last)); [|lia].
    destruct (Z.ltb_spec (status_code last) 600); [discriminate | lia].
Qed.

(* ===================================================================== *)
(** * Constructing a Dsl object: properties *)
(* ===================================================================== *)

(** The login that ends [__init__] sends one request with the three
    attributes; when it returns, the object holds them and the token. *)
Lemma first_login_run (d : Dsl) (auths : list Response) :
  (exists t auths',
     first_login d auths
     = mkRun (Return (mkDsl (_url d) (_username d) (_password d) (Some ("JWT " ++ t))))
             auths'
             [PostJson (_url d ++ "/api/auth.json") (_username d) (_password d)])
  \/ (exists e auths',
        first_login d auths
        = mkRun (Raise e) auths'
                [PostJson (_url d ++ "/api/auth.json") (_username d) (_password d)]).
Proof.
  unfold first_login.
  destruct (login_cases (mkClient d auths))
    as [(a & auths' & dict & t & _ & _ & _ & _ & ->)|(e & c' & -> & _)].
  - left. exists t, auths'. reflexivity.
  - right. exists e, (auth_json c'). reflexivity.
Qed.

(** X19. An object that [Dsl(...)] returns holds a token: the
    constructor returns only after exactly one login that succeeded, so
    [_headers] is set on every object there is. *)
Theorem init_holds_token (config : ini) (instance user password endpoint : string)
    (auths : list Response) (d : Dsl) :
  outcome_of (__init__ config instance user password endpoint auths) = Return d ->
  (exists t, _headers d = Some ("JWT " ++ t))
  /\ logins (events_of (__init__ config instance user password endpoint auths)) = 1%nat.
Proof.
  assert (Hlogin : forall d0,
            outcome_of (first_login d0 auths) = Return d ->
            (exists t, _headers d = Some ("JWT " ++ t))
            /\ logins (events_of (first_login d0 auths)) = 1%nat).
  { intros d0 H.
    destruct (first_login_run d0 auths) as [(t & auths' & E)|(e & auths' & E)];
      rewrite E in H |- *; [|discriminate H].
    injection H as <-. split; [now exists t | reflexivity]. }
  unfold __init__, _get_config_from_file, option_of.
  destruct (truthy user && truthy password); [apply Hlogin|].
  destruct (assoc ("instance." ++ instance) config) as [section|];
    [|py_step; discriminate].
  py_step.
  destruct (assoc "url" section); [|py_step; discriminate]. py_step.
  destruct (assoc "login" section); [|py_step; discriminate]. py_step.
  destruct (assoc "password" section); [|py_step; discriminate]. py_step.
  apply Hlogin.
Qed.

Lemma init_holds_token_witness :
  (exists t, _headers (mkDsl "https://app.dimensions.ai" "your_username"
                             "your_password" (Some "JWT t1"))
             = Some ("JWT " ++ t))
  /\ logins (events_of (__init__ example_ini "live" "" "" "https://app.dimensions.ai"
                                 (auth_json example_client))) = 1%nat.
Proof.
  apply (init_holds_token example_ini "live" "" "" "https://app.dimensions.ai"
           (auth_json example_client)).
  reflexivity.
Defined.

(** X20. Where the credentials come from. With a user and a password
    that are both non-empty, the login goes to the given endpoint with
    them, whatever the credentials file holds. With either of them empty,
    the user, the password and the endpoint that were given play no part:
    the constructor does what it does without arguments. *)
Theorem init_credentials_source (config : ini)
    (instance user password endpoint : string) (auths : list Response) :
  (truthy user = true -> truthy password = true ->
   events_of (__init__ config instance user password endpoint auths)
   = [PostJson (endpoint ++ "/api/auth.json") user password])
  /\ (truthy user = false \/ truthy password = false ->
      __init__ config instance user password endpoint auths
      = __init__ config instance "" "" "https://app.dimensions.ai" auths).
Proof.
  split.
  - intros Hu Hp. unfold __init__. rewrite Hu, Hp. cbn [andb].
    destruct (first_login_run (mkDsl endpoint user password None) auths)
      as [(t & auths' & ->)|(e & auths' & ->)]; reflexivity.
  - intros H. unfold __init__.
    replace (truthy user && truthy password) with false; [reflexivity|].
    destruct H as [H|H]; rewrite H; [reflexivity | now rewrite andb_false_r].
Qed.

Lemma init_credentials_source_witness :
  events_of (__init__ example_ini "live" "user" "secret" "https://other.example"
                      (auth_json example_client))
  = [PostJson ("https://other.example" ++ "/api/auth.json") "user" "secret"]
  /\ __init__ example_ini "live" "user" "" "https://other.example"
              (auth_json example_client)
     = __init__ example_ini "live" "" "" "https://app.dimensions.ai"
                (auth_json example_client).
Proof.
  split.
  - apply (proj1 (init_credentials_source example_ini "live" "user" "secret"
                    "https://other.example" (auth_json example_client)));
      reflexivity.
  - apply (proj2 (init_credentials_source example_ini "live" "user" ""
                    "https://other.example" (auth_json example_client))).
    right. reflexivity.
Defined.

(** X21. Without both a user and a password, a credentials file that
    lacks the section of the instance makes the constructor print its two
    messages and raise [KeyError] for the section; a section that lacks
    one of [url], [login] and [password] makes it raise [KeyError] for
    the first of them, in that order, that is missing. Either way no
    request is sent. *)
Theorem init_without_settings (config : ini)
    (instance user password endpoint : string) (auths : list Response) :
  truthy user && truthy password = false ->
  (assoc ("instance." ++ instance) config = None ->
   __init__ config instance user password endpoint auths
   = mkRun (Raise (KeyError ("instance." ++ instance))) auths
           [Print ("ERROR: Credentials file does contain settings for instance: "
                   ++ instance);
            Print "HowTo: https://github.com/lambdamusic/dimcli#credentials-file"])
  /\ (forall section,
        assoc ("instance." ++ instance) config = Some section ->
        (assoc "url" section = None ->
         __init__ config instance user password endpoint auths
         = mkRun (Raise (KeyError "url")) auths [])
        /\ (assoc "url" section <> None -> assoc "login" section = None ->
            __init__ config instance user password endpoint auths
            = mkRun (Raise (KeyError "login")) auths [])
        /\ (assoc "url" section <> None -> assoc "login" section <> None ->
            assoc "password" section = None ->
            __init__ config instance user password endpoint auths
            = mkRun (Raise (KeyError "password")) auths [])).
Proof.
  intros Hargs. unfold __init__, _get_config_from_file, option_of. rewrite Hargs.
  split.
  - intros ->. py_step. now py_norm.
  - intros section ->. py_step.
    destruct (assoc "url" section) as [url|].
    + py_step. destruct (assoc "login" section) as [login|].
      * py_step. destruct (assoc "password" section) as [pw|].
        -- repeat split; intros; try discriminate; congruence.
        -- repeat split; intros; try discriminate; try congruence;
             now py_step.
      * repeat split; intros; try discriminate; try congruence;
          now py_step.
    + repeat split; intros; try discriminate; try congruence;
        now py_step.
Qed.

Lemma init_without_settings_witness :
  __init__ example_ini "test" "" "" "https://app.dimensions.ai"
           (auth_json example_client)
  = mkRun (Raise (KeyError ("instance." ++ "test"))) (auth_json example_client)
          [Print ("ERROR: Credentials file does contain settings for instance: "
                  ++ "test");
           Print "HowTo: https://github.com/lambdamusic/dimcli#credentials-file"]
  /\ __init__ [("instance.live", [("url", "https://app.dimensions.ai");
                                  ("password", "your_password")])]
              "live" "" "" "https://app.dimensions.ai" (auth_json example_client)
     = mkRun (Raise (KeyError "login")) (auth_json example_client) [].
Proof.
  split.
  - apply (proj1 (init_without_settings example_ini "test" "" ""
                    "https://app.dimensions.ai" (auth_json example_client) eq_refl)).
    reflexivity.
  - apply (proj1 (proj2 (proj2 (init_without_settings
                    [("instance.live", [("url", "https://app.dimensions.ai");
                                        ("password", "your_password")])]
                    "live" "" "" "https://app.dimensions.ai"
                    (auth_json example_client) eq_refl)
                  [("url", "https://app.dimensions.ai");
                   ("password", "your_password")] eq_refl))).
    + discriminate.
    + reflexivity.
Defined.

(** X22. A response with status 200, 400 or 500 whose JSON body is a
    number or a boolean does not give a [Result] either: the constructor
    of [Result] refuses it, and [query] raises its [TypeError] after the
    one request, with the client unchanged. *)
Theorem query_body_not_a_container (c : Client) (h q : string) (retry : Z)
    (response : Response) (rest : list Response) (v : json) :
  _headers (self c) = Some h ->
  In (status_code response) [200; 400; 500] ->
  body response = Some v ->
  container v = false ->
  (forall s, v <> JStr s) ->
  query (response :: rest) q retry c = mkRun (Raise TypeError) c [request c q h].
Proof.
  intros Hh Hs Hb Hv Hstr.
  rewrite (query_step_body c h q retry response rest Hh v Hs Hb).
  destruct v as [| | | |s| |]; try discriminate Hv; try reflexivity.
  now contradiction (Hstr s).
Qed.

(** The length of a string counts code points, not bytes: the two bytes
    that encode U+00E9 are one character. *)
Example len_counts_code_points :
  len (JStr (String (ascii_of_nat 195) (String (ascii_of_nat 169) EmptyString)))
  = Return 1.
Proof. reflexivity. Qed.

End Display.

(* ===================================================================== *)
(** * The properties at work *)
(* ===================================================================== *)

(** Runs of [query] and of the loop in the session of the examples, with
    [example_display] for the display environment. *)

Lemma query_returns_decoded_body_witness :
  exists result : Result,
    query example_display [answer 400 example_payload] example_query 0 example_client
    = mkRun (Return (Some result, [])) example_client
            [request example_client example_query "JWT t0"]
    /\ data result = example_payload
    /\ logins (events_of (query example_display [answer 400 example_payload] example_query 0
                                example_client)) = 0%nat
    /\ List.length
         (requests (events_of (query example_display [answer 400 example_payload] example_query 0
                                     example_client))) = 1%nat.
Proof.
  apply (query_returns_decoded_body example_display example_client "JWT t0" example_query 0
           (answer 400 example_payload) [] example_payload).
  - reflexivity.
  - simpl. tauto.
  - reflexivity.
  - reflexivity.
Defined.

Lemma query_403_logs_in_once_and_retries_witness :
  (let run := query example_display [bare 403; answer 200 example_payload]
                    example_query 0 example_client in
   outcome_of run = Return (Some (mkResult example_payload), [])
   /\ logins (events_of run) = 1%nat
   /\ requests (events_of run)
      = [request example_client example_query "JWT t0";
         request example_client example_query "JWT t1"])
  /\ (let c := mkClient (self example_client) [bare 401] in
      let run := query example_display [bare 403; answer 200 example_payload]
                       example_query 0 c in
      outcome_of run = Raise (HTTPError 401)
      /\ events_of run
         = [request c example_query "JWT t0";
            Print "Login token expired. Logging in again."; login_request c]).
Proof.
  split.
  - destruct (query_403_logs_in_once_and_retries example_display example_client
                "JWT t0" example_query 0 (bare 403) [answer 200 example_payload]
                eq_refl eq_refl) as (_ & _ & _ & relogin).
    apply (proj2 (relogin (answer 200 (JObj [("token", JStr "t1")])) []
                          [("token", JStr "t1")] "t1"
                          eq_refl eq_refl eq_refl eq_refl)
             (answer 200 example_payload) [] example_payload
             eq_refl eq_refl eq_refl eq_refl).
  - destruct (query_403_logs_in_once_and_retries example_display
                (mkClient (self example_client) [bare 401])
                "JWT t0" example_query 0 (bare 403) [answer 200 example_payload]
                eq_refl eq_refl) as (_ & _ & failed & _).
    apply (failed (HTTPError 401)). reflexivity.
Defined.

Lemma query_waits_out_every_429_witness :
  query example_display ([bare 429; bare 429; bare 429] ++ [bare 503]) example_query 0 example_client
  = prepend (rate_limited example_client example_query "JWT t0"
             ++ rate_limited example_client example_query "JWT t0"
             ++ rate_limited example_client example_query "JWT t0")
            (query example_display [bare 503] example_query 0 example_client)
  /\ query example_display [bare 429; bare 429; answer 200 example_payload] example_query 0
           example_client
     = mkRun (Return (Some (mkResult example_payload), [])) example_client
             (rate_limited example_client example_query "JWT t0"
              ++ rate_limited example_client example_query "JWT t0"
              ++ [request example_client example_query "JWT t0"]).
Proof.
  pose proof (query_waits_out_every_429 example_display example_client "JWT t0" example_query 0
                eq_refl) as [runs twice].
  split.
  - apply (runs [bare 429; bare 429; bare 429] [bare 503]).
    + discriminate.
    + repeat constructor.
  - apply (twice (bare 429) (bare 429) (answer 200 example_payload) []
                 example_payload).
    + reflexivity.
    + reflexivity.
    + simpl. tauto.
    + reflexivity.
    + reflexivity.
Defined.

Lemma loop_query_stops_on_short_page_witness :
  (exists merged : Result,
     _handle_query example_display (fun text => text)
                   [answer 200 (example_page 500); answer 200 (example_page 500);
                    answer 200 (example_page 237)]
                   "publications" 500 example_query true example_client
     = mkRun (Return (Some merged)) example_client
             [request example_client (example_query ++ " limit 500 skip 0") "JWT t0";
              request example_client (example_query ++ " limit 500 skip 500") "JWT t0";
              request example_client (example_query ++ " limit 500 skip 1000") "JWT t0"]
     /\ records "publications" (data merged)
        = (records "publications" (example_page 500)
           ++ records "publications" (example_page 500)
           ++ records "publications" (example_page 237))%list
     /\ record_count "publications" merged = 1237)
  /\ (exists merged : Result,
        _handle_query example_display (fun text => text) [answer 200 (example_page 42)]
                      "publications" 500 example_query true example_client
        = mkRun (Return (Some merged)) example_client
                [request example_client (paginate example_query 500 0) "JWT t0"]
        /\ records "publications" (data merged)
           = records "publications" (example_page 42)).
Proof.
  pose proof (loop_query_stops_on_short_page example_display example_client "JWT t0" example_query
                "publications" (fun text => text) [] eq_refl) as [pages short].
  split.
  - apply (pages (example_page 500) (example_page 500) (example_page 237)).
    + reflexivity.
    + reflexivity.
    + reflexivity.
    + intros t E. injection E as <-. reflexivity.
    + intros t E. injection E as <-. reflexivity.
  - apply (short 500 (example_page 42)); reflexivity.
Defined.

Lemma query_drops_budget_after_429_or_403_witness :
  query example_display [bare 429; bare 503; bare 503; bare 503] example_query 2 example_client
  = mkRun (Raise (HTTPError 503)) example_client
          (rate_limited example_client example_query "JWT t0"
           ++ [request example_client example_query "JWT t0"])
  /\ query example_display [bare 403; bare 503; bare 503; bare 503] example_query 2 example_client
     = mkRun (Raise (HTTPError 503)) (logged_in example_client "t1" [])
             (token_expired example_client example_query "JWT t0"
              ++ [login_request example_client;
                  request example_client example_query "JWT t1"]).
Proof.
  pose proof (query_drops_budget_after_429_or_403 example_display example_client "JWT t0"
                example_query 2) as budget.
  split.
  - apply (proj1 (budget (bare 429) (bare 503) [bare 503; bare 503]
                         eq_refl eq_refl eq_refl ltac:(simpl; lia))).
    reflexivity.
  - apply (proj1 (proj2 (budget (bare 403) (bare 503) [bare 503; bare 503]
                                eq_refl eq_refl eq_refl ltac:(simpl; lia)))
             (answer 200 (JObj [("token", JStr "t1")])) []
             [("token", JStr "t1")] "t1");
      reflexivity.
Defined.

Lemma query_retries_then_raises_witness :
  let run := query example_display [bare 503; bare 503; bare 503] example_query 2 example_client in
  events_of run
  = [request example_client example_query "JWT t0";
     Print "Retrying in 30 secs"; Sleep 30;
     request example_client example_query "JWT t0";
     Print "Retrying in 30 secs"; Sleep 30;
     request example_client example_query "JWT t0"]
  /\ List.length (requests (events_of run)) = 3%nat
  /\ (400 <= 503 < 600 -> outcome_of run = Raise (HTTPError 503)).
Proof.
  apply (query_retries_then_raises example_display example_client "JWT t0" example_query 503 2
           [bare 503; bare 503; bare 503] []).
  - reflexivity.
  - reflexivity.
  - reflexivity.
  - repeat constructor.
Defined.

Lemma query_keeps_credentials_witness :
  let run := query example_display [bare 429; bare 503; answer 200 example_payload]
                   example_query 1 example_client in
  state_of run = example_client /\ logins (events_of run) = 0%nat.
Proof.
  apply (proj2 (query_keeps_credentials example_display
                  [bare 429; bare 503; answer 200 example_payload]
                  example_query 1 example_client)).
  repeat constructor; discriminate.
Defined.

Lemma query_result_is_first_answer_witness :
  exists (consumed : list Response) (last : Response) (v : json),
    [bare 503; bare 429; answer 400 (JStr "{}"); bare 200]
    = (consumed ++ last :: [bare 200])%list
    /\ Forall (fun r => ~ In (status_code r) [200; 400; 500]) consumed
    /\ In (status_code last) [200; 400; 500]
    /\ body last = Some v
    /\ Result__init__ example_display v = Return (mkResult (JObj []))
    /\ ((forall s, v <> JStr s) -> data (mkResult (JObj [])) = v)
    /\ container (data (mkResult (JObj []))) = true.
Proof.
  apply (query_result_is_first_answer example_display
           [bare 503; bare 429; answer 400 (JStr "{}"); bare 200]
           example_query 1 example_client (mkResult (JObj [])) [bare 200]).
  reflexivity.
Defined.

Lemma query_accounting_witness :
  let server := [bare 503; bare 429; bare 403; answer 200 example_payload] in
  exists (consumed : list Response) (last : Response),
    server = (consumed ++ last :: [])%list
    /\ List.length (requests (events_of (query example_display server example_query 1 example_client)))
       = S (List.length consumed)
    /\ logins (events_of (query example_display server example_query 1 example_client))
       = count_status 403 consumed
    /\ sleeps (events_of (query example_display server example_query 1 example_client))
       = repeat 30 (List.length consumed - count_status 403 consumed).
Proof.
  intros server.
  apply (query_accounting example_display server example_query 1 example_client
           (Some (mkResult example_payload)) []).
  reflexivity.
Defined.

Lemma query_respects_budget_witness :
  Z.of_nat (List.length
              (requests (events_of (query example_display [bare 503; bare 502; bare 503; bare 503]
                                          example_query 2 example_client))))
  <= Z.max 2 0 + 1.
Proof.
  apply (query_respects_budget example_display [bare 503; bare 502; bare 503; bare 503]
           example_query 2 example_client).
  repeat constructor; discriminate.
Defined.

Lemma query_403_failed_login_witness :
  let c := mkClient (self example_client) [bare 401] in
  outcome_of (query example_display [bare 403; answer 200 example_payload] example_query 0 c)
  = Raise (HTTPError 401)
  /\ events_of (query example_display [bare 403; answer 200 example_payload] example_query 0 c)
     = [request c example_query "JWT t0";
        Print "Login token expired. Logging in again."; login_request c]
  /\ self (state_of (query example_display [bare 403; answer 200 example_payload] example_query 0 c))
     = self c.
Proof.
  intros c.
  apply (query_403_failed_login example_display c "JWT t0" example_query 0 (bare 403)
           [answer 200 example_payload] (HTTPError 401));
    reflexivity.
Defined.

Lemma query_body_not_json_witness :
  query example_display [bare 500] example_query 0 example_client
  = mkRun (Raise ValueError) example_client
          [request example_client example_query "JWT t0"].
Proof.
  apply (query_body_not_json example_display example_client "JWT t0" example_query 0 (bare 500) []).
  - reflexivity.
  - simpl. tauto.
  - reflexivity.
Defined.

Lemma query_returns_None_only_off_range_witness :
  exists (consumed : list Response) (last : Response),
    [bare 503; bare 204; bare 200] = (consumed ++ last :: [bare 200])%list
    /\ ~ In (status_code last) [429; 403; 200; 400; 500]
    /\ (status_code last < 400 \/ 600 <= status_code last).
Proof.
  apply (query_returns_None_only_off_range example_display [bare 503; bare 204; bare 200]
           example_query 1 example_client [bare 200]).
  reflexivity.
Defined.

Lemma query_body_not_a_container_witness :
  query example_display [answer 200 (JInt 5)] example_query 0 example_client
  = mkRun (Raise TypeError) example_client
          [request example_client example_query "JWT t0"].
Proof.
  apply (query_body_not_a_container example_display example_client "JWT t0"
           example_query 0 (answer 200 (JInt 5)) [] (JInt 5)).
  - reflexivity.
  - simpl. tauto.
  - reflexivity.
  - reflexivity.
  - discriminate.
Defined.
